(** * Pendulum simulator: the physics core of [Simulator.tsx]

    A shallow embedding of the Runge-Kutta integrator [rk4], of the frame
    handler [handleFrame], of [resetSimulation] and of the derived
    quantities shown by the canvas and the information panel, with the
    properties the specification states about them.

    Numbers.  A TypeScript [number] is an IEEE-754 double.  The model keeps
    the three special values of a double (both infinities and NaN) and the
    rules by which arithmetic produces and propagates them, and takes the
    arithmetic of finite values to be exact real arithmetic: there is no
    rounding and no overflow, and the two zeros are one.  [Math.sin],
    [Math.cos] and [Math.sqrt] are the real functions on finite arguments.
    A statement that gives the finite value of a computation is therefore
    made on operands (the sliders' ranges, moderate magnitudes) on which
    the doubles do not overflow either, or at one explicit input.

    Arrays.  The trail is a JavaScript array, which [push] and [shift]
    update in place.  Arrays therefore live in a heap and a state holds a
    reference to its trail; plain objects are only ever built by literals
    and spreads in the source, never assigned to, and are records. *)

From Stdlib Require Import Reals Lra Lia List Arith Bool String.
From Equations Require Import Equations.
Import ListNotations.

(** ** Numbers *)

Inductive number : Type :=
| Fin (r : R)
| PInf
| NInf
| NaN.

Arguments Fin r%_R.

Declare Scope js_scope.
Delimit Scope js_scope with js.
Bind Scope js_scope with number.

Module Num.

(** The sign of a finite value, as a three-way comparison with zero. *)
Definition sign (r : R) : comparison :=
  match total_order_T r 0 with
  | inleft (left _) => Lt
  | inleft (right _) => Eq
  | inright _ => Gt
  end.

(** The infinity of a given sign; a zero has no direction. *)
Definition directed (c : comparison) : number :=
  match c with
  | Lt => NInf
  | Eq => NaN
  | Gt => PInf
  end.

Definition neg (a : number) : number :=
  match a with
  | Fin r => Fin (- r)
  | PInf => NInf
  | NInf => PInf
  | NaN => NaN
  end.

Definition add (a b : number) : number :=
  match a, b with
  | Fin r, Fin s => Fin (r + s)
  | NaN, _ | _, NaN => NaN
  | PInf, NInf | NInf, PInf => NaN
  | PInf, _ | _, PInf => PInf
  | NInf, _ | _, NInf => NInf
  end.

Definition sub (a b : number) : number := add a (neg b).

Definition mul (a b : number) : number :=
  match a, b with
  | Fin r, Fin s => Fin (r * s)
  | NaN, _ | _, NaN => NaN
  | Fin r, PInf | PInf, Fin r => directed (sign r)
  | Fin r, NInf | NInf, Fin r => directed (CompOpp (sign r))
  | PInf, PInf | NInf, NInf => PInf
  | PInf, NInf | NInf, PInf => NInf
  end.

(** Division by a finite zero gives the infinity of the dividend's sign,
    and NaN for [0 / 0]. *)
Definition div (a b : number) : number :=
  match a, b with
  | Fin r, Fin s =>
      if Req_dec_T s 0 then directed (sign r) else Fin (r / s)
  | NaN, _ | _, NaN => NaN
  | Fin _, (PInf | NInf) => Fin 0
  | PInf, Fin s => match sign s with Lt => NInf | _ => PInf end
  | NInf, Fin s => match sign s with Lt => PInf | _ => NInf end
  | (PInf | NInf), (PInf | NInf) => NaN
  end.

(** [Number.isFinite]. *)
Definition isFinite (a : number) : bool :=
  match a with
  | Fin _ => true
  | _ => false
  end.

(** The comparisons [<] and [<=]: false as soon as an operand is NaN. *)
Definition lt (a b : number) : Prop :=
  match a, b with
  | Fin r, Fin s => (r < s)%R
  | NaN, _ | _, NaN => False
  | _, NInf => False
  | PInf, _ => False
  | NInf, _ => True
  | _, PInf => True
  end.

Definition le (a b : number) : Prop :=
  match a, b with
  | Fin r, Fin s => (r <= s)%R
  | NaN, _ | _, NaN => False
  | NInf, _ => True
  | _, PInf => True
  | _, NInf => False
  | PInf, _ => False
  end.

End Num.

Notation "- a" := (Num.neg a) : js_scope.
Infix "+" := Num.add : js_scope.
Infix "-" := Num.sub : js_scope.
Infix "*" := Num.mul : js_scope.
Infix "/" := Num.div : js_scope.
Infix "<" := Num.lt : js_scope.
Infix "<=" := Num.le : js_scope.

(** The part of the [Math] object the simulator uses. *)
Module Math.

Definition PI : number := Fin Rtrigo1.PI.

Definition sin (a : number) : number :=
  match a with
  | Fin r => Fin (Rtrigo_def.sin r)
  | _ => NaN
  end.

Definition cos (a : number) : number :=
  match a with
  | Fin r => Fin (Rtrigo_def.cos r)
  | _ => NaN
  end.

Definition sqrt (a : number) : number :=
  match a with
  | Fin r => if Rlt_dec r 0 then NaN else Fin (R_sqrt.sqrt r)
  | PInf => PInf
  | _ => NaN
  end.

(** [Math.pow] at a natural exponent, the only use the source makes of
    it ([Math.pow(v, 2)]): a repeated product, with [pow a 0 = 1]. *)
Fixpoint pow (a : number) (n : nat) : number :=
  match n with
  | O => Fin 1
  | S k => (a * pow a k)%js
  end.

End Math.

(** ** The data model ([types/simulation.ts]) *)

(** An array reference: the index of the array in the heap. *)
Definition loc := nat.

Record Point : Type := mkPoint { x : number; y : number }.

Record PendulumState : Type := mkState {
  angle : number;
  angularVelocity : number;
  length : number;
  mass : number;
  trail : loc
}.

Record SimulationControls : Type := mkControls {
  isRunning : bool;
  gravity : number;
  damping : number;
  showTrail : bool
}.

(** ** Arrays of points, by reference *)

Definition Heap := list (list Point).

Module Arr.

(** The elements of the array at [l]. *)
Definition read (h : Heap) (l : loc) : list Point := nth l h [].

Fixpoint write (h : Heap) (l : loc) (v : list Point) : Heap :=
  match h, l with
  | [], _ => []
  | _ :: t, O => v :: t
  | a :: t, S k => a :: write t k v
  end.

(** Heap computations: a state monad over the heap. *)
Definition M (A : Type) : Type := Heap -> A * Heap.

Definition ret {A} (a : A) : M A := fun h => (a, h).

Definition bind {A B} (m : M A) (k : A -> M B) : M B :=
  fun h => let (a, h') := m h in k a h'.

(** [[...a]] and the literal [[]]: a new array, after all the others. *)
Definition literal (v : list Point) : M loc :=
  fun h => (List.length h, h ++ [v]).

Definition spread (l : loc) : M loc :=
  fun h => literal (read h l) h.

(** [a.push(p)], in place. *)
Definition push (l : loc) (p : Point) : M unit :=
  fun h => (tt, write h l (read h l ++ [p])).

(** [a.shift()], in place; the element removed is not used. *)
Definition shift (l : loc) : M unit :=
  fun h => (tt, write h l (tl (read h l))).

End Arr.

Notation "a <- m ;; k" := (Arr.bind m (fun a => k))
  (at level 61, m at next level, right associativity).
Notation "m ;; k" := (Arr.bind m (fun _ => k))
  (at level 61, right associativity).

(** *** What the termination of the eviction loop rests on *)

Module ArrFacts.

Import Arr.

Lemma write_length h l v : List.length (write h l v) = List.length h.
Proof.
  revert l; induction h as [|a t IH]; intros [|k]; simpl; auto.
Qed.

Lemma read_write_same h l v :
  l < List.length h -> read (write h l v) l = v.
Proof.
  unfold read. revert l; induction h as [|a t IH]; intros [|k] H;
    simpl in *; try lia; auto.
  apply IH; lia.
Qed.

Lemma read_write_other h l l' v :
  l' <> l -> read (write h l v) l' = read h l'.
Proof.
  unfold read. revert l l'; induction h as [|a t IH]; intros [|k] [|k'] H;
    simpl; auto; try congruence.
Qed.

Lemma read_out_of_range h l : List.length h <= l -> read h l = [].
Proof. intros H. unfold read. apply nth_overflow. exact H. Qed.

Lemma read_app_old h v l : l < List.length h -> read (h ++ [v]) l = read h l.
Proof. intros H. unfold read. apply app_nth1. exact H. Qed.

Lemma read_app_new h v : read (h ++ [v]) (List.length h) = v.
Proof. unfold read. rewrite app_nth2, Nat.sub_diag; auto. Qed.

End ArrFacts.

(** [while (a.length > 50) a.shift();] on the array at [l]. *)
Equations? shift_while (l : loc) (h : Heap) : unit * Heap
  by wf (List.length (Arr.read h l)) lt :=
  shift_while l h with lt_dec 50 (List.length (Arr.read h l)) := {
    | left _ => shift_while l (snd (Arr.shift l h))
    | right _ => (tt, h) }.
Proof.
  simpl.
  destruct (le_lt_dec (List.length h) l) as [Hout|Hin].
  - rewrite (ArrFacts.read_out_of_range h l Hout) in *. simpl in *. lia.
  - rewrite ArrFacts.read_write_same by exact Hin.
    destruct (Arr.read h l); simpl in *; lia.
Qed.

(** ** The integrator ([rk4]) *)

Definition rk4 (state : PendulumState) (dt gravity damping : number)
  : number * number :=
  let f := fun theta omega : number =>
    let dtheta := omega in
    let domega :=
      ((- gravity / length state) * Math.sin theta - damping * omega)%js in
    (dtheta, domega) in
  let '(theta, omega) := (angle state, angularVelocity state) in
  let '(k1t, k1v) := f theta omega in
  let '(k2t, k2v) :=
    f (theta + k1t * dt / Fin 2)%js (omega + k1v * dt / Fin 2)%js in
  let '(k3t, k3v) :=
    f (theta + k2t * dt / Fin 2)%js (omega + k2v * dt / Fin 2)%js in
  let '(k4t, k4v) := f (theta + k3t * dt)%js (omega + k3v * dt)%js in
  let newTheta :=
    (theta + (dt / Fin 6) * (k1t + Fin 2 * k2t + Fin 2 * k3t + k4t))%js in
  let newOmega :=
    (omega + (dt / Fin 6) * (k1v + Fin 2 * k2v + Fin 2 * k3v + k4v))%js in
  (newTheta, newOmega).

(** How a call ends: with a value, or with an exception thrown. *)
Inductive Completion (A : Type) : Type :=
| Normal (value : A)
| Throw (message : string).

Arguments Normal {A} value.
Arguments Throw {A} message.

(** A call of [rk4].  Its body is arithmetic on numbers, [Math.sin] and
    array destructuring of pairs it has built itself; it has no [throw]
    and calls nothing that throws. *)
Definition rk4_call (state : PendulumState) (dt gravity damping : number)
  : Completion (number * number) :=
  Normal (rk4 state dt gravity damping).

(** ** The component ([Simulator]) *)

(** What the component holds between renders: the two [useState] cells,
    the two [useRef] cells, and the heap their arrays live in. *)
Record Store : Type := mkStore {
  heap : Heap;
  state : PendulumState;
  controls : SimulationControls;
  lastTimeRef : number;
  pausedTimeRef : number
}.

(** The position of the bob on the canvas for a given angle, as the
    frame handler computes it for the trail. *)
Definition bob (prev : PendulumState) (newAngle : number) : Point :=
  let pivotX := Fin 300 in
  let pivotY := Fin 125 in
  let stringLength := (length prev * Fin 150)%js in
  let bobX := (pivotX + Math.sin newAngle * stringLength)%js in
  let bobY := (pivotY + Math.cos newAngle * stringLength)%js in
  {| x := bobX; y := bobY |}.

(** The function [handleFrame] passes to [setState]. *)
Definition updater (controls : SimulationControls) (deltaTime : number)
  (prev : PendulumState) : Arr.M PendulumState :=
  let dt := deltaTime in
  let '(newAngle, newVelocity) :=
    rk4 prev dt (gravity controls) (damping controls / Fin 100)%js in
  newTrail <- Arr.spread (trail prev) ;;
  (if showTrail controls
   then Arr.push newTrail (bob prev newAngle) ;; shift_while newTrail
   else Arr.ret tt) ;;
  Arr.ret {| angle := newAngle;
             angularVelocity := newVelocity;
             length := length prev;
             mass := mass prev;
             trail := newTrail |}.

(** [setState(f)]: the state cell takes the value [f] computes from it. *)
Definition setState (f : PendulumState -> Arr.M PendulumState) (s : Store)
  : Store :=
  let (st, h) := f (state s) (heap s) in
  {| heap := h; state := st; controls := controls s;
     lastTimeRef := lastTimeRef s; pausedTimeRef := pausedTimeRef s |}.

Definition setControls (f : SimulationControls -> SimulationControls)
  (s : Store) : Store :=
  {| heap := heap s; state := state s; controls := f (controls s);
     lastTimeRef := lastTimeRef s; pausedTimeRef := pausedTimeRef s |}.

Definition handleFrame (s : Store) (deltaTime : number) : Store :=
  if negb (isRunning (controls s))
  then {| heap := heap s; state := state s; controls := controls s;
          lastTimeRef := lastTimeRef s; pausedTimeRef := deltaTime |}
  else setState (updater (controls s) deltaTime) s.

(** The initial values of the two [useState] cells. *)
Definition initialState (trail : loc) : PendulumState :=
  {| angle := (Math.PI / Fin 4)%js;
     angularVelocity := Fin 0;
     length := Fin 2;
     mass := Fin 1;
     trail := trail |}.

Definition initialControls : SimulationControls :=
  {| isRunning := true;
     gravity := Fin 9.81;
     damping := Fin 0.5;
     showTrail := true |}.

(** The component when it mounts: both refs start at 0. *)
Definition mount : Store :=
  let (t, h) := Arr.literal [] [] in
  {| heap := h; state := initialState t; controls := initialControls;
     lastTimeRef := Fin 0; pausedTimeRef := Fin 0 |}.

(** [resetSimulation]; [now] is what [performance.now()] returns. *)
Definition resetSimulation (now : number) (s : Store) : Store :=
  let s1 := setState (fun _ => t <- Arr.literal [] ;; Arr.ret (initialState t)) s in
  let s2 :=
    setControls (fun prev => {| isRunning := true;
                                gravity := gravity prev;
                                damping := damping prev;
                                showTrail := showTrail prev |}) s1 in
  {| heap := heap s2; state := state s2; controls := controls s2;
     lastTimeRef := now; pausedTimeRef := pausedTimeRef s2 |}.

(** The elements of the trail of the current state. *)
Definition trailOf (s : Store) : list Point :=
  Arr.read (heap s) (trail (state s)).

(** ** Derived quantities *)

(** [calculateEnergy] and [calculateMaxEnergy] of the canvas. *)
Definition calculateEnergy (state : PendulumState) (gravity : number)
  : number :=
  let kineticEnergy :=
    (Fin 0.5 * mass state
     * Math.pow (angularVelocity state * length state) 2)%js in
  let potentialEnergy :=
    (mass state * gravity * length state
     * (Fin 1 - Math.cos (angle state)))%js in
  (kineticEnergy + potentialEnergy)%js.

Definition calculateMaxEnergy (state : PendulumState) (gravity : number)
  : number :=
  (Fin 2 * mass state * gravity * length state)%js.

(** The two numbers of the information panel, before [toFixed(2)]. *)
Definition periodText (state : PendulumState) (controls : SimulationControls)
  : number :=
  (Fin 2 * Math.PI * Math.sqrt (length state / gravity controls))%js.

Definition maxSpeedText (state : PendulumState)
  (controls : SimulationControls) : number :=
  (Math.sqrt (Fin 2 * gravity controls * length state)
   * (Fin 1 - Math.cos (angle state)))%js.

(** [toggleSimulation]; [now] is what [performance.now()] returns. *)
Definition toggleSimulation (now : number) (s : Store) : Store :=
  let newIsRunning := negb (isRunning (controls s)) in
  let s1 :=
    setControls (fun prev => {| isRunning := newIsRunning;
                                gravity := gravity prev;
                                damping := damping prev;
                                showTrail := showTrail prev |}) s in
  {| heap := heap s1; state := state s1; controls := controls s1;
     lastTimeRef := if newIsRunning then now else lastTimeRef s;
     pausedTimeRef := pausedTimeRef s1 |}.

(** The [onChange] handler of the gravity slider, on the number parsed. *)
Definition onGravityChange (value : number) (s : Store) : Store :=
  setControls (fun prev => {| isRunning := isRunning prev;
                              gravity := value;
                              damping := damping prev;
                              showTrail := showTrail prev |}) s.

(** ** The classical Runge-Kutta step, as the specification words it *)

Module RK4.

Local Open Scope R_scope.

(** The damped pendulum: the derivative of [(theta, omega)]. *)
Definition pendulum (gravity len dampingCoefficient : R) (theta omega : R)
  : R * R :=
  (omega, - (gravity / len) * sin theta - dampingCoefficient * omega).

(** One step of size [dt] for a system [f] in two unknowns: four stages,
    then the average [(k1 + 2 k2 + 2 k3 + k4) / 6], scaled by [dt]. *)
Definition step (f : R -> R -> R * R) (dt theta omega : R) : R * R :=
  let k1 := f theta omega in
  let k2 := f (theta + fst k1 * dt / 2) (omega + snd k1 * dt / 2) in
  let k3 := f (theta + fst k2 * dt / 2) (omega + snd k2 * dt / 2) in
  let k4 := f (theta + fst k3 * dt) (omega + snd k3 * dt) in
  (theta + dt * ((fst k1 + 2 * fst k2 + 2 * fst k3 + fst k4) / 6),
   omega + dt * ((snd k1 + 2 * snd k2 + 2 * snd k3 + snd k4) / 6)).

End RK4.

(** ** The trail buffer, as the specification words it *)

Module TrailBuffer.

Definition capacity : nat := 50.

(** The last [n] elements of a list, in order. *)
Definition lastn {A} (n : nat) (l : list A) : list A :=
  skipn (List.length l - n) l.

(** [append]: add at the tail, then evict from the head down to capacity. *)
Definition append (buf : list Point) (p : Point) : list Point :=
  lastn capacity (buf ++ [p]).

End TrailBuffer.

(** ** Derived quantities, as the specification words them *)

Module Derived.

Definition sq (a : number) : number := (a * a)%js.

Definition kineticEnergy (st : PendulumState) : number :=
  (Fin 0.5 * mass st * sq (angularVelocity st * length st))%js.

Definition potentialEnergy (st : PendulumState) (gravity : number) : number :=
  (mass st * gravity * length st * (Fin 1 - Math.cos (angle st)))%js.

Definition totalEnergy (st : PendulumState) (gravity : number) : number :=
  (kineticEnergy st + potentialEnergy st gravity)%js.

Definition maxEnergy (st : PendulumState) (gravity : number) : number :=
  (Fin 2 * mass st * gravity * length st)%js.

Definition periodEstimate (st : PendulumState) (gravity : number) : number :=
  (Fin 2 * Math.PI * Math.sqrt (length st / gravity))%js.

Definition maxSpeedEstimate (st : PendulumState) (gravity : number)
  : number :=
  (Math.sqrt (Fin 2 * gravity * length st)
   * (Fin 1 - Math.cos (angle st)))%js.

End Derived.

(** The parameters the specification calls invalid for the integrator. *)
Definition invalidParameter (st : PendulumState) (g d : number) : Prop :=
  (length st <= Fin 0)%js
  \/ Num.isFinite g = false \/ Num.isFinite d = false.

(** ** Devices of the statements *)

(** The first angular acceleration [rk4] evaluates. *)
Definition k1v (st : PendulumState) (g d : number) : number :=
  ((- g / length st) * Math.sin (angle st) - d * angularVelocity st)%js.

(** The frames of a list of time deltas, in order. *)
Fixpoint run (s : Store) (dts : list number) : Store :=
  match dts with
  | [] => s
  | dt :: rest => run (handleFrame s dt) rest
  end.

(** The point one frame computes for the trail. *)
Definition framePoint (s : Store) (dt : number) : Point :=
  bob (state s)
    (fst (rk4 (state s) dt (gravity (controls s))
            (damping (controls s) / Fin 100)%js)).

(** The points the frames of [dts] compute, in order; a paused frame
    computes none. *)
Fixpoint appended (s : Store) (dts : list number) : list Point :=
  match dts with
  | [] => []
  | dt :: rest =>
      (if isRunning (controls s) then [framePoint s dt] else [])
      ++ appended (handleFrame s dt) rest
  end.

(** ** Particular stores *)

(** A string of no length with the bob at rest below the pivot: a value
    of type [PendulumState], though not one the length slider offers. *)
Definition limp : PendulumState :=
  {| angle := Fin 0; angularVelocity := Fin 0; length := Fin 0;
     mass := Fin 1; trail := 0 |}.

(** The component with the zero-length state, otherwise as mounted. *)
Definition limpStore : Store :=
  {| heap := [[]]; state := limp; controls := initialControls;
     lastTimeRef := Fin 0; pausedTimeRef := Fin 0 |}.

(** The component as mounted, after the gravity slider was moved to 5. *)
Definition lowGravity : Store := onGravityChange (Fin 5) mount.

(** The component as mounted, after the pause button was pressed. *)
Definition pausedStore : Store := toggleSimulation (Fin 0) mount.

(** ** The other handlers of [Simulator] *)

(** The [onChange] handlers of the length, mass and damping sliders, on
    the number parsed.  The spread copies the reference to the trail: the
    new state shares the array of the old one. *)
Definition onLengthChange (value : number) (s : Store) : Store :=
  setState (fun prev => Arr.ret {| angle := angle prev;
                                   angularVelocity := angularVelocity prev;
                                   length := value;
                                   mass := mass prev;
                                   trail := trail prev |}) s.

Definition onMassChange (value : number) (s : Store) : Store :=
  setState (fun prev => Arr.ret {| angle := angle prev;
                                   angularVelocity := angularVelocity prev;
                                   length := length prev;
                                   mass := value;
                                   trail := trail prev |}) s.

Definition onDampingChange (value : number) (s : Store) : Store :=
  setControls (fun prev => {| isRunning := isRunning prev;
                              gravity := gravity prev;
                              damping := value;
                              showTrail := showTrail prev |}) s.

(** The [onClick] handler of the trail button. *)
Definition toggleTrail (s : Store) : Store :=
  setControls (fun prev => {| isRunning := isRunning prev;
                              gravity := gravity prev;
                              damping := damping prev;
                              showTrail := negb (showTrail prev) |}) s.

(** ** The canvas ([PendulumCanvas]) *)

(** [Math.min] of two numbers: NaN as soon as one of them is. *)
Definition Math_min (a b : number) : number :=
  match a, b with
  | Fin r, Fin s => if Rle_dec r s then Fin r else Fin s
  | NaN, _ | _, NaN => NaN
  | NInf, _ | _, NInf => NInf
  | PInf, c | c, PInf => c
  end.

(** What [!a] negates: a number is falsy when it is zero or NaN. *)
Definition truthy (a : number) : bool :=
  match a with
  | Fin r => if Req_dec_T r 0 then false else true
  | NaN => false
  | _ => true
  end.

(** What the canvas sends to its 2D context for the trail. *)
Inductive PathCmd : Type :=
| BeginPath
| MoveTo (px py : number)
| QuadraticCurveTo (cpx cpy px py : number)
| SetStrokeStyle (style : string)
| SetLineWidth (width : number)
| Stroke.

Module PendulumCanvas.

(** The ref of the canvas that holds the time of the last frame (it is a
    cell of the canvas, not the one of [Simulator]). *)
Record Refs : Type := mkRefs { lastTimeRef : number }.

(** The time step [animate] computes from the frame's timestamp. *)
Definition deltaTimeOf (r : Refs) (currentTime : number) : number :=
  let last :=
    if negb (truthy (lastTimeRef r)) then currentTime else lastTimeRef r in
  Math_min ((currentTime - last) / Fin 1000)%js (Fin 0.017).

(** [animate], for what it does to the refs and, through [onFrame], to
    the component; what it draws is read from [state] and [controls] and
    goes to the canvas only. *)
Definition animate (r : Refs) (s : Store) (currentTime : number)
  : Refs * Store :=
  let deltaTime := deltaTimeOf r currentTime in
  let r' := {| lastTimeRef := currentTime |} in
  (r', if isRunning (controls s) then handleFrame s deltaTime else s).

(** The position at which [animate] draws the bob, on a canvas whose
    bounding rectangle is [width] by [height]. *)
Definition bobDrawn (width height : number) (state : PendulumState)
  : Point :=
  let pivotX := (width / Fin 2)%js in
  let pivotY := (height / Fin 4)%js in
  let stringLength := (length state * Fin 150)%js in
  let bobX := (pivotX + Math.sin (angle state) * stringLength)%js in
  let bobY := (pivotY + Math.cos (angle state) * stringLength)%js in
  {| x := bobX; y := bobY |}.

(** The height of the energy bar. *)
Definition energyHeight (state : PendulumState)
  (controls : SimulationControls) : number :=
  let energy := calculateEnergy state (gravity controls) in
  let maxEnergy := calculateMaxEnergy state (gravity controls) in
  (energy / maxEnergy * Fin 100)%js.

(** [trail[i]]: reading a coordinate of an element that is not there
    throws. *)
Definition at_index (trail : list Point) (i : nat) : Completion Point :=
  match nth_error trail i with
  | Some p => Normal p
  | None => Throw "TypeError"
  end.

(** The [for] loop of the trail, from index [i] on.  The bound
    [trail.length - 1] is only computed under the guard
    [trail.length > 1], where it is at least 1. *)
Equations? curvesFrom (trail : list Point) (i : nat)
  : Completion (list PathCmd)
  by wf (List.length trail - 1 - i) lt :=
  curvesFrom trail i with lt_dec i (List.length trail - 1) := {
    | left _ =>
        match at_index trail i, at_index trail (i + 1) with
        | Normal p, Normal q =>
            let xc := ((x p + x q) / Fin 2)%js in
            let yc := ((y p + y q) / Fin 2)%js in
            match curvesFrom trail (i + 1) with
            | Normal rest =>
                Normal (QuadraticCurveTo (x p) (y p) xc yc :: rest)
            | Throw e => Throw e
            end
        | Throw e, _ => Throw e
        | _, Throw e => Throw e
        end
    | right _ => Normal [] }.
Proof. lia. Qed.

(** The trail block of [animate]. *)
Definition drawTrail (showTrail : bool) (trail : list Point)
  : Completion (list PathCmd) :=
  if showTrail && (1 <? List.length trail)
  then
    match at_index trail 0 with
    | Normal p0 =>
        match curvesFrom trail 1 with
        | Normal curves =>
            Normal ([BeginPath; MoveTo (x p0) (y p0)] ++ curves
                    ++ [SetStrokeStyle "rgba(59, 130, 246, 0.15)";
                        SetLineWidth (Fin 3); Stroke])
        | Throw e => Throw e
        end
    | Throw e => Throw e
    end
  else Normal [].

End PendulumCanvas.

(** A store whose pendulum hangs at rest, with the string, the mass and
    the controls of the initial state. *)
Definition atRest : Store :=
  {| heap := [[]];
     state := {| angle := Fin 0; angularVelocity := Fin 0; length := Fin 2;
                 mass := Fin 1; trail := 0 |};
     controls := initialControls;
     lastTimeRef := Fin 0; pausedTimeRef := Fin 0 |}.

(** The curve the trail loop issues at index [i]: the control point is
    the [i]-th point, the end point is half way to the next one. *)
Definition curveAt (trail : list Point) (i : nat) : PathCmd :=
  let p := nth i trail (mkPoint NaN NaN) in
  let q := nth (i + 1) trail (mkPoint NaN NaN) in
  QuadraticCurveTo (x p) (y p)
    ((x p + x q) / Fin 2)%js ((y p + y q) / Fin 2)%js.

(** ** The classical step in the program's own arithmetic *)

(** The step of the specification once more, this time on numbers: the
    same stages and weights as [RK4.step], with the arithmetic [rk4] itself
    uses, so that what holds of it does not depend on how finite numbers
    round or overflow. *)
Module Classical.

(** The damped pendulum: [dtheta/dt = omega] and
    [domega/dt = -(gravity/length) sin theta - dampingCoefficient omega]. *)
Definition pendulum (gravity len dampingCoefficient : number)
  (theta omega : number) : number * number :=
  (omega,
   (- (gravity / len) * Math.sin theta - dampingCoefficient * omega)%js).

(** Four stages, at [(theta, omega)], at the two half steps and at the
    full step, then [dt / 6] times [k1 + 2 k2 + 2 k3 + k4]. *)
Definition step (f : number -> number -> number * number)
  (dt theta omega : number) : number * number :=
  let k1 := f theta omega in
  let k2 :=
    f (theta + fst k1 * dt / Fin 2)%js (omega + snd k1 * dt / Fin 2)%js in
  let k3 :=
    f (theta + fst k2 * dt / Fin 2)%js (omega + snd k2 * dt / Fin 2)%js in
  let k4 := f (theta + fst k3 * dt)%js (omega + snd k3 * dt)%js in
  ((theta + dt / Fin 6 * (fst k1 + Fin 2 * fst k2 + Fin 2 * fst k3 + fst k4))%js,
   (omega + dt / Fin 6 * (snd k1 + Fin 2 * snd k2 + Fin 2 * snd k3 + snd k4))%js).

End Classical.

(** ** The ranges of the sliders *)

(** The [min] and [max] of the four range inputs of [Simulator]. *)
Definition lengthSlider (len : R) : Prop := (0.5 <= len <= 4)%R.

Definition massSlider (m : R) : Prop := (0.5 <= m <= 2)%R.

Definition dampingSlider (d : R) : Prop := (0 <= d <= 100)%R.

Definition gravitySlider (g : R) : Prop := (1 <= g <= 20)%R.

(** A magnitude of at most a million: with such operands and a length
    from the slider no product, quotient or sum of [rk4] or of the energy
    comes anywhere near the largest double. *)
Definition moderate (r : R) : Prop := (- 1000000 <= r <= 1000000)%R.

(** * Lemmas *)

(** ** Arithmetic of finite numbers *)

Lemma div_fin (r s : R) : s <> 0%R -> (Fin r / Fin s)%js = Fin (r / s).
Proof.
  intros H. unfold Num.div. destruct (Req_dec_T s 0); [contradiction|reflexivity].
Qed.

Lemma div_fin_zero (r : R) : (Fin r / Fin 0)%js = Num.directed (Num.sign r).
Proof.
  unfold Num.div. destruct (Req_dec_T 0 0); [reflexivity|congruence].
Qed.

Lemma sign_zero : Num.sign 0 = Eq.
Proof.
  unfold Num.sign. destruct (total_order_T 0 0) as [[?|?]|?]; auto; lra.
Qed.

Lemma sign_pos (r : R) : (0 < r)%R -> Num.sign r = Gt.
Proof.
  intros H. unfold Num.sign.
  destruct (total_order_T r 0) as [[?|?]|?]; auto; lra.
Qed.

Lemma sign_opp (r : R) : Num.sign (- r) = CompOpp (Num.sign r).
Proof.
  unfold Num.sign.
  destruct (total_order_T (- r) 0) as [[?|?]|?];
    destruct (total_order_T r 0) as [[?|?]|?]; try reflexivity; lra.
Qed.

(** The sign of a quotient can be put on the dividend. *)
Lemma neg_div (a b : number) : (- (a / b))%js = (- a / b)%js.
Proof.
  destruct a as [r| | |], b as [s| | |]; cbn [Num.neg Num.div];
    try reflexivity.
  - destruct (Req_dec_T s 0).
    + rewrite sign_opp. destruct (Num.sign r); reflexivity.
    + cbn [Num.neg]. f_equal. field. assumption.
  - f_equal. ring.
  - f_equal. ring.
  - destruct (Num.sign s); reflexivity.
  - destruct (Num.sign s); reflexivity.
Qed.

(** Rewrites a goal about finite operands into real arithmetic; the side
    conditions are that the divisors are not zero. *)
Ltac fin_arith :=
  repeat first
    [ rewrite div_fin by (assumption || lra)
    | progress cbn [Num.add Num.sub Num.mul Num.neg Math.sin Math.cos
                    Math.pow Math.PI] ].

(** On finite operands with a length that is not zero, [rk4] computes
    the real numbers of the classical step. *)
Lemma rk4_finite (theta omega len dt g d : R) (m : number) (tr : loc) :
  len <> 0%R ->
  rk4 (mkState (Fin theta) (Fin omega) (Fin len) m tr) (Fin dt) (Fin g) (Fin d)
  = (Fin (fst (RK4.step (RK4.pendulum g len d) dt theta omega)),
     Fin (snd (RK4.step (RK4.pendulum g len d) dt theta omega))).
Proof.
  intros Hlen.
  unfold rk4. cbn [angle angularVelocity length].
  fin_arith.
  assert (E : forall t w : R,
             (- g / len * sin t + - (d * w))%R
             = snd (RK4.pendulum g len d t w))
    by (intros; unfold RK4.pendulum; cbn [snd]; field; assumption).
  assert (F : forall t w : R, fst (RK4.pendulum g len d t w) = w)
    by reflexivity.
  rewrite !E. unfold RK4.step. cbv zeta. cbn [fst snd]. rewrite !F.
  f_equal; f_equal; field.
Qed.

(** ** Keeping the last elements of a list *)

Import TrailBuffer.

Lemma lastn_length {A} n (l : list A) :
  List.length (lastn n l) = Nat.min n (List.length l).
Proof. unfold lastn. rewrite length_skipn. lia. Qed.

Lemma lastn_all {A} n (l : list A) : List.length l <= n -> lastn n l = l.
Proof.
  intros H. unfold lastn. replace (List.length l - n) with 0 by lia.
  reflexivity.
Qed.

Lemma lastn_tl {A} n (l : list A) :
  n < List.length l -> lastn n (tl l) = lastn n l.
Proof.
  unfold lastn. destruct l as [|a t]; cbn [tl List.length]; [lia|]. intros H.
  replace (S (List.length t) - n) with (S (List.length t - n)) by lia.
  reflexivity.
Qed.

(** Keeping the last [n] is insensitive to what was evicted before. *)
Lemma lastn_app_lastn {A} n (l k : list A) :
  lastn n (lastn n l ++ k) = lastn n (l ++ k).
Proof.
  unfold lastn. rewrite !length_app, length_skipn.
  destruct (le_lt_dec (List.length l) n) as [Hle|Hgt].
  - replace (List.length l - n) with 0 by lia.
    rewrite Nat.sub_0_r. reflexivity.
  - rewrite !skipn_app, length_skipn, skipn_skipn.
    replace (List.length l - (List.length l - n) + List.length k - n
             + (List.length l - n))
      with (List.length l + List.length k - n) by lia.
    f_equal. f_equal. lia.
Qed.

(** What was appended is the last element. *)
Lemma append_last (buf : list Point) (p d : Point) :
  last (append buf p) d = p.
Proof.
  unfold append, lastn, capacity.
  rewrite length_app, skipn_app. cbn [List.length].
  replace (List.length buf + 1 - 50 - List.length buf) with 0 by lia.
  cbn [skipn]. apply last_last.
Qed.

(** ** The eviction loop *)

Lemma shift_while_length l h :
  List.length (snd (shift_while l h)) = List.length h.
Proof.
  funelim (shift_while l h); [|reflexivity].
  match goal with IH : List.length _ = _ |- _ => rewrite IH end.
  apply ArrFacts.write_length.
Qed.

Lemma read_shift l h :
  0 < List.length (Arr.read h l) ->
  Arr.read (snd (Arr.shift l h)) l = tl (Arr.read h l).
Proof.
  intros H. simpl. apply ArrFacts.read_write_same.
  destruct (le_lt_dec (List.length h) l) as [Hout|Hin]; [|exact Hin].
  rewrite (ArrFacts.read_out_of_range h l Hout) in H. simpl in H. lia.
Qed.

(** The loop leaves the last 50 elements of the array, in order. *)
Lemma shift_while_read l h :
  Arr.read (snd (shift_while l h)) l
  = TrailBuffer.lastn 50 (Arr.read h l).
Proof.
  funelim (shift_while l h).
  - match goal with IH : Arr.read _ _ = _ |- _ => rewrite IH end.
    rewrite read_shift by lia. apply lastn_tl. assumption.
  - simpl. symmetry. apply lastn_all. lia.
Qed.

(** It touches no other array. *)
Lemma shift_while_other l h l' :
  l' <> l -> Arr.read (snd (shift_while l h)) l' = Arr.read h l'.
Proof.
  intros Hne. funelim (shift_while l h); [|reflexivity].
  match goal with
  | IH : forall k, k <> _ -> Arr.read _ _ = _ |- _ => rewrite (IH _ Hne)
  end.
  simpl. apply ArrFacts.read_write_other. exact Hne.
Qed.

(** ** One frame *)

(** What the updater returns and what it leaves in the heap. *)
Lemma updater_spec c dt prev h :
  let rk := rk4 prev dt (gravity c) (damping c / Fin 100)%js in
  let r := updater c dt prev h in
  fst r = mkState (fst rk) (snd rk) (length prev) (mass prev) (List.length h)
  /\ List.length (snd r) = S (List.length h)
  /\ (forall l, l < List.length h -> Arr.read (snd r) l = Arr.read h l)
  /\ Arr.read (snd r) (List.length h)
     = if showTrail c
       then TrailBuffer.append (Arr.read h (trail prev)) (bob prev (fst rk))
       else Arr.read h (trail prev).
Proof.
  intros rk r. subst r. unfold updater. fold rk.
  destruct rk as [newAngle newVelocity]. cbn [fst snd].
  unfold Arr.bind, Arr.spread, Arr.literal, Arr.ret.
  destruct (showTrail c).
  - unfold Arr.push.
    set (h1 := Arr.write _ _ _).
    assert (Hlen1 : List.length h1 = S (List.length h)).
    { subst h1. rewrite ArrFacts.write_length, length_app. simpl. lia. }
    assert (Hnew : Arr.read h1 (List.length h)
                   = Arr.read h (trail prev) ++ [bob prev newAngle]).
    { subst h1. rewrite ArrFacts.read_write_same, ArrFacts.read_app_new;
        [reflexivity | rewrite length_app; simpl; lia]. }
    pose proof (shift_while_length (List.length h) h1) as Hl.
    pose proof (shift_while_read (List.length h) h1) as Hr.
    pose proof (shift_while_other (List.length h) h1) as Ho.
    destruct (shift_while (List.length h) h1) as [[] h2]. cbn [fst snd] in *.
    repeat split.
    + congruence.
    + intros l Hlt. rewrite Ho by lia. subst h1.
      rewrite ArrFacts.read_write_other by lia. apply ArrFacts.read_app_old. exact Hlt.
    + rewrite Hr, Hnew. reflexivity.
  - cbn [fst snd]. repeat split.
    + rewrite length_app. simpl. lia.
    + intros l Hlt. apply ArrFacts.read_app_old. exact Hlt.
    + apply ArrFacts.read_app_new.
Qed.

(** A frame of a running simulation: the new state, and the heap around
    it.  Every array that existed keeps its elements; the new trail is a
    new array. *)
Lemma handleFrame_running s dt :
  isRunning (controls s) = true ->
  let rk :=
    rk4 (state s) dt (gravity (controls s))
      (damping (controls s) / Fin 100)%js in
  let s' := handleFrame s dt in
  state s' = mkState (fst rk) (snd rk) (length (state s)) (mass (state s))
               (List.length (heap s))
  /\ controls s' = controls s
  /\ List.length (heap s') = S (List.length (heap s))
  /\ (forall l, l < List.length (heap s) ->
        Arr.read (heap s') l = Arr.read (heap s) l)
  /\ trailOf s'
     = if showTrail (controls s)
       then TrailBuffer.append (trailOf s) (bob (state s) (fst rk))
       else trailOf s.
Proof.
  intros Hrun rk s'. subst s'. unfold handleFrame. rewrite Hrun. cbn [negb].
  unfold setState.
  destruct (updater_spec (controls s) dt (state s) (heap s))
    as (Hst & Hlen & Hold & Hnew).
  fold rk in Hst, Hnew.
  destruct (updater (controls s) dt (state s) (heap s)) as [st h'].
  cbn [fst snd] in *. unfold trailOf. cbn [heap state controls].
  subst st. cbn [trail]. auto.
Qed.

Lemma handleFrame_paused s dt :
  isRunning (controls s) = false ->
  handleFrame s dt
  = mkStore (heap s) (state s) (controls s) (lastTimeRef s) dt.
Proof. intros H. unfold handleFrame. rewrite H. reflexivity. Qed.

(** ** Non-finite values spread *)

Section Poison.

Variables a b : number.
Hypothesis Ha : Num.isFinite a = false.

Lemma neg_poison : Num.isFinite (- a)%js = false.
Proof. destruct a; try discriminate; reflexivity. Qed.

Lemma add_poison_l : Num.isFinite (a + b)%js = false.
Proof. destruct a, b; try discriminate; reflexivity. Qed.

Lemma add_poison_r : Num.isFinite (b + a)%js = false.
Proof. destruct a, b; try discriminate; reflexivity. Qed.

Lemma sub_poison_l : Num.isFinite (a - b)%js = false.
Proof. destruct a, b; try discriminate; reflexivity. Qed.

Lemma sub_poison_r : Num.isFinite (b - a)%js = false.
Proof. destruct a, b; try discriminate; reflexivity. Qed.

Lemma mul_poison_l : Num.isFinite (a * b)%js = false.
Proof.
  destruct a, b; try discriminate; try reflexivity;
    simpl; destruct (Num.sign r); reflexivity.
Qed.

Lemma mul_poison_r : Num.isFinite (b * a)%js = false.
Proof.
  destruct a, b; try discriminate; try reflexivity;
    simpl; destruct (Num.sign r); reflexivity.
Qed.

Lemma div_poison_l : Num.isFinite (a / b)%js = false.
Proof.
  destruct a, b; try discriminate; try reflexivity;
    simpl; destruct (Num.sign r); reflexivity.
Qed.

Lemma sin_poison : Math.sin a = NaN.
Proof. destruct a; try discriminate; reflexivity. Qed.

Lemma cos_poison : Math.cos a = NaN.
Proof. destruct a; try discriminate; reflexivity. Qed.

End Poison.

Lemma div_zero_poison (a : number) : Num.isFinite (a / Fin 0)%js = false.
Proof.
  destruct a; try reflexivity.
  - rewrite div_fin_zero. destruct (Num.sign r); reflexivity.
  - simpl. destruct (Num.sign 0); reflexivity.
  - simpl. destruct (Num.sign 0); reflexivity.
Qed.

Create HintDb poison.

#[local] Hint Resolve neg_poison add_poison_l add_poison_r sub_poison_l
  sub_poison_r mul_poison_l mul_poison_r div_poison_l div_zero_poison
  : poison.

(** Once that value is not finite, neither number [rk4] returns is. *)
Lemma rk4_poison st dt g d :
  Num.isFinite (k1v st g d) = false ->
  Num.isFinite (fst (rk4 st dt g d)) = false
  /\ Num.isFinite (snd (rk4 st dt g d)) = false.
Proof.
  unfold k1v, rk4. cbn [fst snd]. intros H. split; auto 20 with poison.
Qed.

(** Which it is as soon as the length is zero or a control is not finite. *)
Lemma k1v_poison st g d :
  length st = Fin 0 \/ Num.isFinite g = false \/ Num.isFinite d = false ->
  Num.isFinite (k1v st g d) = false.
Proof.
  unfold k1v. intros [H | [H | H]].
  - rewrite H. auto with poison.
  - auto 6 with poison.
  - auto with poison.
Qed.

(** The point computed from an angle that is not finite. *)
Lemma bob_poison st a :
  Num.isFinite a = false -> bob st a = mkPoint NaN NaN.
Proof.
  intros H. unfold bob. rewrite (sin_poison a H), (cos_poison a H).
  destruct (length st * Fin 150)%js; reflexivity.
Qed.

(** ** NaN absorbs *)

Lemma nan_add_l a : (NaN + a)%js = NaN.
Proof. destruct a; reflexivity. Qed.

Lemma nan_add_r a : (a + NaN)%js = NaN.
Proof. destruct a; reflexivity. Qed.

Lemma nan_sub_l a : (NaN - a)%js = NaN.
Proof. destruct a; reflexivity. Qed.

Lemma nan_sub_r a : (a - NaN)%js = NaN.
Proof. destruct a; reflexivity. Qed.

Lemma nan_mul_l a : (NaN * a)%js = NaN.
Proof. destruct a; reflexivity. Qed.

Lemma nan_mul_r a : (a * NaN)%js = NaN.
Proof. destruct a; reflexivity. Qed.

Lemma nan_div_l a : (NaN / a)%js = NaN.
Proof. destruct a; reflexivity. Qed.

Create Rewrite HintDb nan.

#[local] Hint Rewrite nan_add_l nan_add_r nan_sub_l nan_sub_r nan_mul_l
  nan_mul_r nan_div_l : nan.

Lemma rk4_nan st dt g d :
  k1v st g d = NaN -> rk4 st dt g d = (NaN, NaN).
Proof.
  unfold k1v, rk4. intros H. rewrite H. autorewrite with nan. reflexivity.
Qed.

Lemma k1v_limp (g d : R) : k1v limp (Fin g) (Fin d) = NaN.
Proof.
  unfold k1v, limp. cbn [angle angularVelocity length Num.neg].
  rewrite div_fin_zero. cbn [Math.sin]. rewrite sin_0.
  destruct (Num.sign (- g)) eqn:E; cbn [Num.directed Num.mul];
    rewrite ?sign_zero; reflexivity.
Qed.

Lemma pow_2_sq (a : number) : Math.pow a 2 = Derived.sq a.
Proof.
  unfold Derived.sq. cbn [Math.pow]. destruct a; cbn [Num.mul].
  - f_equal. ring.
  - rewrite sign_pos by lra. reflexivity.
  - rewrite sign_pos by lra. reflexivity.
  - reflexivity.
Qed.

Lemma limpStore_result :
  rk4 (state limpStore) (Fin 0.01) (gravity (controls limpStore))
    (damping (controls limpStore) / Fin 100)%js
  = (NaN, NaN).
Proof.
  apply rk4_nan. cbn [limpStore state controls gravity damping initialControls].
  rewrite div_fin by lra. apply k1v_limp.
Qed.

(** The trail after a sequence of frames, [showTrail] being set. *)
Lemma run_trail (dts : list number) :
  forall s : Store,
    showTrail (controls s) = true ->
    List.length (trailOf s) <= 50 ->
    trailOf (run s dts) = TrailBuffer.lastn 50 (trailOf s ++ appended s dts).
Proof.
  induction dts as [|dt rest IH]; intros s Hshow Hlen; cbn [run appended].
  - rewrite app_nil_r. symmetry. apply lastn_all. exact Hlen.
  - destruct (isRunning (controls s)) eqn:Hrun.
    + destruct (handleFrame_running s dt Hrun) as (_ & Hc & _ & _ & Htr).
      rewrite Hshow in Htr. fold (framePoint s dt) in Htr.
      rewrite IH.
      * rewrite Htr. unfold TrailBuffer.append, TrailBuffer.capacity.
        rewrite lastn_app_lastn, <- app_assoc. reflexivity.
      * rewrite Hc. exact Hshow.
      * rewrite Htr. unfold TrailBuffer.append, TrailBuffer.capacity.
        rewrite lastn_length. lia.
    + rewrite (handleFrame_paused s dt Hrun). cbn [app].
      set (s1 := mkStore _ _ _ _ _).
      change (trailOf s) with (trailOf s1). apply IH; assumption.
Qed.

(** The numbers of the specification's example: one step of 0.01 s from
    rest at pi/4, without damping. *)
Lemma example_step :
  let next := RK4.step (RK4.pendulum 9.81 2 (0 / 100)) 0.01 (PI / 4) 0 in
  (snd next < 0)%R /\ (fst next < PI / 4)%R.
Proof.
  intros next. subst next. unfold RK4.step, RK4.pendulum. cbv zeta. cbn [fst snd].
  pose proof PI2_3_2 as Hlo. pose proof PI_4 as Hhi.
  set (s1 := sin (PI / 4)).
  assert (H1 : (0 < s1 <= 1)%R).
  { subst s1. split; [apply sin_gt_0; lra | apply SIN_bound]. }
  set (s1' := sin (PI / 4 + 0 * 0.01 / 2)).
  assert (H1' : (0 < s1' <= 1)%R).
  { subst s1'. split; [apply sin_gt_0; lra | apply SIN_bound]. }
  set (s2 := sin (PI / 4 + (0 + (- (9.81 / 2) * s1 - _) * 0.01 / 2) * 0.01 / 2)).
  assert (H2 : (0 < s2)%R).
  { subst s2. apply sin_gt_0; lra. }
  set (s3 := sin (PI / 4 + (0 + (- (9.81 / 2) * s1' - _) * 0.01 / 2) * 0.01)).
  assert (H3 : (0 < s3)%R).
  { subst s3. apply sin_gt_0; lra. }
  clearbody s1 s1' s2 s3. split; lra.
Qed.

(** * The claims *)

(** C1.  [rk4] returns one classical fourth-order Runge-Kutta step of
    the damped pendulum [dtheta/dt = omega], [domega/dt = -(gravity/length)
    sin theta - dampingCoefficient omega]: the four stages at
    [(theta, omega)], [(theta + k1 dt/2, omega + k1v dt/2)],
    [(theta + k2 dt/2, omega + k2v dt/2)] and [(theta + k3 dt, omega + k3v
    dt)], combined with the weights of [(k1 + 2 k2 + 2 k3 + k4) / 6] times
    [dt].  This holds for every input, the finite ones with a positive
    length among them, in the arithmetic the program computes with. *)
Theorem rk4_is_classical_runge_kutta
  (st : PendulumState) (dt gravity dampingCoefficient : number) :
  rk4 st dt gravity dampingCoefficient
  = Classical.step (Classical.pendulum gravity (length st) dampingCoefficient)
      dt (angle st) (angularVelocity st).
Proof.
  unfold Classical.step, Classical.pendulum, rk4. cbv zeta. cbn [fst snd].
  rewrite neg_div. reflexivity.
Qed.

(** C2.  A frame of a running simulation calls the integrator on the
    current state with the current gravity and with [damping / 100], stores
    the two numbers it returns as the angle and the angular velocity, and
    computes the bob's canvas position from the new angle and the length.
    With [showTrail] the trail becomes the old trail with that position
    appended (evicting from the head above 50); without it the trail keeps
    exactly its elements. *)
Theorem handleFrame_running_step (s : Store) (deltaTime : number) :
  isRunning (controls s) = true ->
  let s' := handleFrame s deltaTime in
  let result :=
    rk4 (state s) deltaTime (gravity (controls s))
      (damping (controls s) / Fin 100)%js in
  let position :=
    {| x := (Fin 300 + Math.sin (fst result) * (length (state s) * Fin 150))%js;
       y := (Fin 125 + Math.cos (fst result) * (length (state s) * Fin 150))%js
    |} in
  angle (state s') = fst result
  /\ angularVelocity (state s') = snd result
  /\ (showTrail (controls s) = true ->
      trailOf s' = TrailBuffer.append (trailOf s) position
      /\ last (trailOf s') position = position)
  /\ (showTrail (controls s) = false -> trailOf s' = trailOf s).
Proof.
  intros Hrun s' result position.
  destruct (handleFrame_running s deltaTime Hrun) as (Hst & _ & _ & _ & Htr).
  fold s' result in Hst, Htr. rewrite Hst. cbn [angle angularVelocity].
  split; [reflexivity|]. split; [reflexivity|]. split.
  - intros Hshow. rewrite Htr, Hshow.
    split; [reflexivity | apply append_last].
  - intros Hshow. rewrite Htr, Hshow. reflexivity.
Qed.

Lemma handleFrame_running_step_witness :
  let s' := handleFrame mount (Fin 0.01) in
  let result :=
    rk4 (state mount) (Fin 0.01) (gravity (controls mount))
      (damping (controls mount) / Fin 100)%js in
  let position :=
    {| x := (Fin 300 + Math.sin (fst result) * (length (state mount) * Fin 150))%js;
       y := (Fin 125 + Math.cos (fst result) * (length (state mount) * Fin 150))%js
    |} in
  angle (state s') = fst result
  /\ angularVelocity (state s') = snd result
  /\ (showTrail (controls mount) = true ->
      trailOf s' = TrailBuffer.append (trailOf mount) position
      /\ last (trailOf s') position = position)
  /\ (showTrail (controls mount) = false -> trailOf s' = trailOf mount).
Proof.
  apply (handleFrame_running_step mount (Fin 0.01)). reflexivity.
Defined.

(** C3, as the code has it.  [rk4] validates nothing.  Called with a
    length that is not positive or with a gravity or a damping coefficient
    that is not finite, the call completes normally with the pair its
    arithmetic produces and signals no error; when the length is zero, or
    gravity or the coefficient is not finite, both numbers of that pair are
    themselves not finite. *)
Theorem rk4_validates_nothing (st : PendulumState) (dt g d : number) :
  invalidParameter st g d ->
  exists newTheta newOmega : number,
    rk4_call st dt g d = Normal (newTheta, newOmega)
    /\ (forall message, rk4_call st dt g d <> Throw message)
    /\ (length st = Fin 0
        \/ Num.isFinite g = false \/ Num.isFinite d = false ->
        Num.isFinite newTheta = false /\ Num.isFinite newOmega = false).
Proof.
  intros _.
  exists (fst (rk4 st dt g d)), (snd (rk4 st dt g d)).
  unfold rk4_call. rewrite <- surjective_pairing.
  repeat split; try discriminate;
    apply rk4_poison, k1v_poison; assumption.
Qed.

Lemma rk4_validates_nothing_witness :
  exists newTheta newOmega : number,
    rk4_call limp (Fin 0.01) (Fin 9.81) (Fin 0.005)
    = Normal (newTheta, newOmega)
    /\ (forall message,
          rk4_call limp (Fin 0.01) (Fin 9.81) (Fin 0.005) <> Throw message)
    /\ (length limp = Fin 0
        \/ Num.isFinite (Fin 9.81) = false
        \/ Num.isFinite (Fin 0.005) = false ->
        Num.isFinite newTheta = false /\ Num.isFinite newOmega = false).
Proof.
  apply (rk4_validates_nothing limp (Fin 0.01) (Fin 9.81) (Fin 0.005)).
  left. simpl. lra.
Defined.

(** C3 fails as stated: with a length of zero, which is invalid, the call
    signals nothing and returns NaN for both numbers. *)
Lemma rk4_zero_length_returns_nan :
  invalidParameter limp (Fin 9.81) (Fin 0.005)
  /\ rk4_call limp (Fin 0.01) (Fin 9.81) (Fin 0.005) = Normal (NaN, NaN)
  /\ ~ (exists message,
          rk4_call limp (Fin 0.01) (Fin 9.81) (Fin 0.005) = Throw message).
Proof.
  assert (E : rk4_call limp (Fin 0.01) (Fin 9.81) (Fin 0.005)
              = Normal (NaN, NaN)).
  { unfold rk4_call. f_equal. apply rk4_nan, k1v_limp. }
  repeat split.
  - left. simpl. lra.
  - exact E.
  - intros [message H]. rewrite E in H. discriminate.
Qed.

(** C4, as the code has it.  The frame handler checks nothing after the
    step.  Whenever the integrator returns an angle or an angular velocity
    that is not finite, a running frame stores both numbers as they are;
    and when the angle is the one that is not finite and [showTrail] is
    set, the point appended to the trail is (NaN, NaN). *)
Theorem handleFrame_checks_nothing (s : Store) (deltaTime : number) :
  isRunning (controls s) = true ->
  let result :=
    rk4 (state s) deltaTime (gravity (controls s))
      (damping (controls s) / Fin 100)%js in
  Num.isFinite (fst result) = false \/ Num.isFinite (snd result) = false ->
  let s' := handleFrame s deltaTime in
  angle (state s') = fst result
  /\ angularVelocity (state s') = snd result
  /\ (Num.isFinite (angle (state s')) = false
      \/ Num.isFinite (angularVelocity (state s')) = false)
  /\ (Num.isFinite (fst result) = false -> showTrail (controls s) = true ->
      trailOf s' = TrailBuffer.append (trailOf s) (mkPoint NaN NaN)).
Proof.
  intros Hrun result Hbad s'.
  destruct (handleFrame_running s deltaTime Hrun) as (Hst & _ & _ & _ & Htr).
  fold s' result in Hst, Htr. rewrite Hst. cbn [angle angularVelocity].
  repeat split; auto.
  intros Hangle Hshow. rewrite Htr, Hshow, (bob_poison _ _ Hangle). reflexivity.
Qed.

Lemma handleFrame_checks_nothing_witness :
  let result :=
    rk4 (state limpStore) (Fin 0.01) (gravity (controls limpStore))
      (damping (controls limpStore) / Fin 100)%js in
  let s' := handleFrame limpStore (Fin 0.01) in
  angle (state s') = fst result
  /\ angularVelocity (state s') = snd result
  /\ (Num.isFinite (angle (state s')) = false
      \/ Num.isFinite (angularVelocity (state s')) = false)
  /\ (Num.isFinite (fst result) = false ->
      showTrail (controls limpStore) = true ->
      trailOf s' = TrailBuffer.append (trailOf limpStore) (mkPoint NaN NaN)).
Proof.
  apply (handleFrame_checks_nothing limpStore (Fin 0.01)).
  - reflexivity.
  - left. rewrite limpStore_result. reflexivity.
Defined.

(** C4 fails as stated: on the zero-length state the integrator returns
    NaN twice, and the frame stores NaN as angle and as angular velocity
    and appends the point (NaN, NaN) to the trail. *)
Lemma handleFrame_stores_nan :
  let s' := handleFrame limpStore (Fin 0.01) in
  isRunning (controls limpStore) = true
  /\ Num.isFinite (angle (state limpStore)) = true
  /\ Num.isFinite (angularVelocity (state limpStore)) = true
  /\ angle (state s') = NaN
  /\ angularVelocity (state s') = NaN
  /\ trailOf s' = [mkPoint NaN NaN].
Proof.
  intros s'.
  destruct (handleFrame_running limpStore (Fin 0.01) eq_refl)
    as (Hst & _ & _ & _ & Htr).
  fold s' in Hst, Htr. rewrite limpStore_result in Hst, Htr.
  rewrite Hst, Htr. cbn [angle angularVelocity fst snd].
  repeat split.
Qed.

(** C5, as the code has it.  [resetSimulation] puts the state back to its
    initial values (angle pi/4, angular velocity 0, length 2, mass 1 and a
    new, empty trail) and sets [isRunning]; gravity, damping and
    [showTrail] keep the values they had, whatever the state and the
    controls were before. *)
Theorem resetSimulation_restores_state (now : number) (s : Store) :
  let s' := resetSimulation now s in
  angle (state s') = Fin (PI / 4)
  /\ angularVelocity (state s') = Fin 0
  /\ length (state s') = Fin 2
  /\ mass (state s') = Fin 1
  /\ trailOf s' = []
  /\ isRunning (controls s') = true
  /\ gravity (controls s') = gravity (controls s)
  /\ damping (controls s') = damping (controls s)
  /\ showTrail (controls s') = showTrail (controls s).
Proof.
  intros s'. subst s'. unfold resetSimulation, setControls, setState, trailOf.
  cbn [Arr.bind Arr.literal Arr.ret heap state controls initialState angle
       angularVelocity length mass trail isRunning gravity damping showTrail].
  rewrite ArrFacts.read_app_new. unfold Math.PI. rewrite div_fin by lra.
  repeat split.
Qed.

(** C5 fails as stated: a reset leaves the gravity where the slider put
    it, so the controls are not the initial ones. *)
Lemma resetSimulation_keeps_gravity :
  gravity (controls (resetSimulation (Fin 0) lowGravity)) = Fin 5
  /\ gravity (controls (resetSimulation (Fin 0) lowGravity)) <> Fin 9.81
  /\ controls (resetSimulation (Fin 0) lowGravity) <> initialControls.
Proof.
  assert (N : Fin 5 <> Fin 9.81) by (intros H; injection H; lra).
  repeat split.
  - exact N.
  - intros H. apply N.
    change (Fin 5) with (gravity (controls (resetSimulation (Fin 0) lowGravity))).
    rewrite H. reflexivity.
Qed.

(** C7.  A frame of a paused simulation returns the state it was given:
    the same angle, angular velocity, length, mass and trail reference,
    over an unchanged heap, so the trail has the same elements; this holds
    for every time delta. *)
Theorem handleFrame_paused_is_noop (s : Store) (deltaTime : number) :
  isRunning (controls s) = false ->
  let s' := handleFrame s deltaTime in
  state s' = state s
  /\ angle (state s') = angle (state s)
  /\ angularVelocity (state s') = angularVelocity (state s)
  /\ heap s' = heap s
  /\ trailOf s' = trailOf s.
Proof.
  intros Hrun s'. subst s'. rewrite (handleFrame_paused s deltaTime Hrun).
  unfold trailOf. cbn [state heap]. repeat split.
Qed.

Lemma handleFrame_paused_is_noop_witness :
  let s' := handleFrame pausedStore (Fin 0.017) in
  state s' = state pausedStore
  /\ angle (state s') = angle (state pausedStore)
  /\ angularVelocity (state s') = angularVelocity (state pausedStore)
  /\ heap s' = heap pausedStore
  /\ trailOf s' = trailOf pausedStore.
Proof.
  apply (handleFrame_paused_is_noop pausedStore (Fin 0.017)). reflexivity.
Defined.

(** C8.  Each derived quantity is the formula of the specification, a
    function of the state and of gravity alone: [calculateEnergy] is the
    kinetic plus the potential energy, [calculateMaxEnergy] is
    [2 mass gravity length], and the two numbers of the information panel
    are [2 pi sqrt(length / gravity)] and
    [sqrt(2 gravity length) (1 - cos angle)]. *)
Theorem derived_quantities_match (st : PendulumState) (c : SimulationControls) :
  calculateEnergy st (gravity c)
  = (Derived.kineticEnergy st + Derived.potentialEnergy st (gravity c))%js
  /\ calculateEnergy st (gravity c) = Derived.totalEnergy st (gravity c)
  /\ calculateMaxEnergy st (gravity c) = Derived.maxEnergy st (gravity c)
  /\ periodText st c = Derived.periodEstimate st (gravity c)
  /\ maxSpeedText st c = Derived.maxSpeedEstimate st (gravity c).
Proof.
  unfold calculateEnergy, Derived.totalEnergy, Derived.kineticEnergy.
  rewrite pow_2_sq. repeat split.
Qed.



(** C6.  From a trail of at most 50 points, with [showTrail] set, after
    any sequence of frames the trail has at most 50 points and is the last
    50 (or all, if fewer) of the points it started with followed by the
    points the frames computed, in the order they were computed: the
    oldest leave first. *)
Theorem trail_is_last_fifty (s : Store) (dts : list number) :
  showTrail (controls s) = true ->
  List.length (trailOf s) <= 50 ->
  List.length (trailOf (run s dts)) <= 50
  /\ trailOf (run s dts)
     = TrailBuffer.lastn 50 (trailOf s ++ appended s dts)
  /\ (trailOf s = [] ->
      trailOf (run s dts) = TrailBuffer.lastn 50 (appended s dts))
  /\ (forall older kept,
        trailOf s ++ appended s dts = older ++ kept ->
        List.length kept = 50 ->
        trailOf (run s dts) = kept).
Proof.
  intros Hshow Hlen.
  pose proof (run_trail dts s Hshow Hlen) as E.
  repeat split.
  - rewrite E, lastn_length. lia.
  - exact E.
  - intros Hnil. rewrite E, Hnil. reflexivity.
  - intros older kept Hsplit Hkept. rewrite E, Hsplit.
    unfold TrailBuffer.lastn. rewrite length_app, Hkept.
    replace (List.length older + 50 - 50) with (List.length older + 0) by lia.
    rewrite skipn_app, Nat.add_0_r, skipn_all.
    replace (List.length older - List.length older) with 0 by lia.
    reflexivity.
Qed.

Lemma trail_is_last_fifty_witness :
  List.length (trailOf (run mount [Fin 0.01; Fin 0.017])) <= 50
  /\ trailOf (run mount [Fin 0.01; Fin 0.017])
     = TrailBuffer.lastn 50
         (trailOf mount ++ appended mount [Fin 0.01; Fin 0.017])
  /\ (trailOf mount = [] ->
      trailOf (run mount [Fin 0.01; Fin 0.017])
      = TrailBuffer.lastn 50 (appended mount [Fin 0.01; Fin 0.017]))
  /\ (forall older kept,
        trailOf mount ++ appended mount [Fin 0.01; Fin 0.017]
        = older ++ kept ->
        List.length kept = 50 ->
        trailOf (run mount [Fin 0.01; Fin 0.017]) = kept).
Proof.
  apply (trail_is_last_fifty mount [Fin 0.01; Fin 0.017]).
  - reflexivity.
  - simpl. lia.
Defined.

(** C9.  From the initial state (angle pi/4, at rest, length 2, mass 1)
    with gravity 9.81, no damping and the simulation running, one frame of
    0.01 s leaves an angular velocity below zero and an angle below
    pi/4, whatever the heap, the trail, [showTrail] and the refs are. *)
Theorem first_frame_swings_back
  (h : Heap) (t : loc) (show : bool) (r1 r2 : number) :
  let s :=
    mkStore h (initialState t) (mkControls true (Fin 9.81) (Fin 0) show)
      r1 r2 in
  let s' := handleFrame s (Fin 0.01) in
  (angularVelocity (state s') < Fin 0)%js
  /\ (angle (state s') < Math.PI / Fin 4)%js
  /\ angle (state s) = (Math.PI / Fin 4)%js
  /\ angularVelocity (state s) = Fin 0.
Proof.
  intros s s'.
  destruct (handleFrame_running s (Fin 0.01) eq_refl) as (Hst & _).
  fold s' in Hst. rewrite Hst. subst s.
  cbn [state controls gravity damping angle angularVelocity].
  unfold initialState, Math.PI. cbn [angle angularVelocity].
  rewrite !div_fin by lra.
  rewrite rk4_finite by lra. cbn [fst snd Num.lt].
  destruct example_step as [Hv Ha]. auto.
Qed.

(** * Further properties of the code *)

(** ** The integrator *)

(** A classical step of size zero is the identity, for every system. *)
Lemma step_zero (f : R -> R -> R * R) (theta omega : R) :
  RK4.step f 0 theta omega = (theta, omega)%R.
Proof.
  unfold RK4.step. cbv zeta. f_equal; field.
Qed.

(** X1.  A step of zero duration changes nothing: for a length within
    its slider's range and an angle, angular velocity, gravity and damping
    coefficient of moderate size, [rk4] with [dt = 0] returns the angle
    and the angular velocity it was given. *)
Theorem rk4_zero_step (theta omega len g d : R) (m : number) (tr : loc) :
  lengthSlider len ->
  moderate theta -> moderate omega -> moderate g -> moderate d ->
  rk4 (mkState (Fin theta) (Fin omega) (Fin len) m tr) (Fin 0) (Fin g) (Fin d)
  = (Fin theta, Fin omega).
Proof.
  intros [Hlo Hhi] _ _ _ _. rewrite rk4_finite by lra.
  rewrite step_zero. reflexivity.
Qed.

Lemma rk4_zero_step_witness :
  rk4 (mkState (Fin 1) (Fin 3) (Fin 2) (Fin 1) 0) (Fin 0) (Fin 9.81) (Fin 0.005)
  = (Fin 1, Fin 3).
Proof.
  apply (rk4_zero_step 1 3 2 9.81 0.005 (Fin 1) 0);
    unfold lengthSlider, moderate; lra.
Defined.

Section RealSteps.

Local Open Scope R_scope.

(** The derivative of the pendulum at rest below the pivot is zero. *)
Lemma pendulum_rest (g len d : R) : RK4.pendulum g len d 0 0 = (0, 0).
Proof. unfold RK4.pendulum. rewrite sin_0. f_equal; ring. Qed.

Lemma step_rest (g len d dt : R) :
  RK4.step (RK4.pendulum g len d) dt 0 0 = (0, 0).
Proof.
  unfold RK4.step. cbv zeta.
  rewrite pendulum_rest. cbn [fst snd].
  replace (0 + 0 * dt / 2) with 0 by field.
  rewrite pendulum_rest. cbn [fst snd].
  replace (0 + 0 * dt / 2) with 0 by field.
  rewrite pendulum_rest. cbn [fst snd].
  replace (0 + 0 * dt) with 0 by ring.
  rewrite pendulum_rest. cbn [fst snd].
  f_equal; field.
Qed.

(** A classical step of an odd system is odd. *)
Lemma step_odd (f : R -> R -> R * R) (dt theta omega : R) :
  (forall a b : R, f (- a) (- b) = (- fst (f a b), - snd (f a b))) ->
  RK4.step f dt (- theta) (- omega)
  = (- fst (RK4.step f dt theta omega), - snd (RK4.step f dt theta omega)).
Proof.
  intros Hodd. unfold RK4.step. cbv zeta.
  set (k1 := f theta omega).
  rewrite (Hodd theta omega). fold k1. cbn [fst snd].
  replace (- theta + - fst k1 * dt / 2)
    with (- (theta + fst k1 * dt / 2)) by field.
  replace (- omega + - snd k1 * dt / 2)
    with (- (omega + snd k1 * dt / 2)) by field.
  set (k2 := f (theta + fst k1 * dt / 2) (omega + snd k1 * dt / 2)).
  rewrite (Hodd (theta + fst k1 * dt / 2) (omega + snd k1 * dt / 2)).
  fold k2. cbn [fst snd].
  replace (- theta + - fst k2 * dt / 2)
    with (- (theta + fst k2 * dt / 2)) by field.
  replace (- omega + - snd k2 * dt / 2)
    with (- (omega + snd k2 * dt / 2)) by field.
  set (k3 := f (theta + fst k2 * dt / 2) (omega + snd k2 * dt / 2)).
  rewrite (Hodd (theta + fst k2 * dt / 2) (omega + snd k2 * dt / 2)).
  fold k3. cbn [fst snd].
  replace (- theta + - fst k3 * dt)
    with (- (theta + fst k3 * dt)) by ring.
  replace (- omega + - snd k3 * dt)
    with (- (omega + snd k3 * dt)) by ring.
  set (k4 := f (theta + fst k3 * dt) (omega + snd k3 * dt)).
  rewrite (Hodd (theta + fst k3 * dt) (omega + snd k3 * dt)).
  fold k4. cbn [fst snd].
  f_equal; field.
Qed.

Lemma pendulum_odd (g len d a b : R) :
  RK4.pendulum g len d (- a) (- b)
  = (- fst (RK4.pendulum g len d a b), - snd (RK4.pendulum g len d a b)).
Proof.
  unfold RK4.pendulum. cbn [fst snd]. rewrite sin_neg. f_equal. ring.
Qed.

End RealSteps.

(** X3.  The integrator is mirror symmetric: for finite inputs and a
    length that is not zero, negating the angle and the angular velocity
    negates both numbers [rk4] returns. *)
Theorem rk4_mirror (theta omega len dt g d : R) (m : number) (tr : loc) :
  len <> 0%R ->
  let st := mkState (Fin theta) (Fin omega) (Fin len) m tr in
  let mirrored := mkState (- Fin theta)%js (- Fin omega)%js (Fin len) m tr in
  rk4 mirrored (Fin dt) (Fin g) (Fin d)
  = ((- fst (rk4 st (Fin dt) (Fin g) (Fin d)))%js,
     (- snd (rk4 st (Fin dt) (Fin g) (Fin d)))%js).
Proof.
  intros Hlen st mirrored. subst st mirrored. cbn [Num.neg].
  rewrite !rk4_finite by exact Hlen. cbn [fst snd Num.neg].
  rewrite (step_odd (RK4.pendulum g len d) dt theta omega (pendulum_odd g len d)).
  reflexivity.
Qed.

Lemma rk4_mirror_witness :
  rk4 (mkState (- Fin 1)%js (- Fin 3)%js (Fin 2) (Fin 1) 0)
    (Fin 0.01) (Fin 9.81) (Fin 0.005)
  = ((- fst (rk4 (mkState (Fin 1) (Fin 3) (Fin 2) (Fin 1) 0)
               (Fin 0.01) (Fin 9.81) (Fin 0.005)))%js,
     (- snd (rk4 (mkState (Fin 1) (Fin 3) (Fin 2) (Fin 1) 0)
               (Fin 0.01) (Fin 9.81) (Fin 0.005)))%js).
Proof.
  apply (rk4_mirror 1 3 2 0.01 9.81 0.005 (Fin 1) 0). lra.
Defined.

(** X4.  Without gravity the step is the one of a linear equation: for a
    length within its slider's range and an angle, angular velocity, time
    step and damping coefficient of moderate size, with
    [h = damping * dt], the angular velocity is multiplied by the Taylor
    polynomial of degree four of [exp (- h)], and the angle advances by
    [omega * dt] times the matching polynomial of degree three (up to the
    rounding of the doubles). *)
Theorem rk4_without_gravity
  (theta omega len dt d : R) (m : number) (tr : loc) :
  lengthSlider len ->
  moderate theta -> moderate omega -> moderate dt -> moderate d ->
  let h := (d * dt)%R in
  rk4 (mkState (Fin theta) (Fin omega) (Fin len) m tr) (Fin dt) (Fin 0) (Fin d)
  = (Fin (theta + omega * dt * (1 - h / 2 + h ^ 2 / 6 - h ^ 3 / 24)),
     Fin (omega * (1 - h + h ^ 2 / 2 - h ^ 3 / 6 + h ^ 4 / 24))).
Proof.
  intros [Hlo Hhi] _ _ _ _ h. subst h.
  assert (Hlen : len <> 0%R) by lra.
  rewrite rk4_finite by exact Hlen.
  unfold RK4.step, RK4.pendulum. cbv zeta. cbn [fst snd].
  f_equal; f_equal; field; exact Hlen.
Qed.

Lemma rk4_without_gravity_witness :
  rk4 (mkState (Fin 1) (Fin 3) (Fin 2) (Fin 1) 0) (Fin 0.01) (Fin 0) (Fin 0.5)
  = (Fin (1 + 3 * 0.01
              * (1 - (0.5 * 0.01) / 2 + (0.5 * 0.01) ^ 2 / 6
                 - (0.5 * 0.01) ^ 3 / 24)),
     Fin (3 * (1 - 0.5 * 0.01 + (0.5 * 0.01) ^ 2 / 2
               - (0.5 * 0.01) ^ 3 / 6 + (0.5 * 0.01) ^ 4 / 24))).
Proof.
  apply (rk4_without_gravity 1 3 2 0.01 0.5 (Fin 1) 0);
    unfold lengthSlider, moderate; lra.
Defined.

(** ** Sequences of frames *)

(** What no frame changes. *)
Lemma handleFrame_keeps (s : Store) (dt : number) :
  controls (handleFrame s dt) = controls s
  /\ length (state (handleFrame s dt)) = length (state s)
  /\ mass (state (handleFrame s dt)) = mass (state s)
  /\ lastTimeRef (handleFrame s dt) = lastTimeRef s.
Proof.
  destruct (isRunning (controls s)) eqn:Hrun.
  - destruct (handleFrame_running s dt Hrun) as (Hst & Hc & _).
    rewrite Hst, Hc. cbn [length mass]. repeat split.
    unfold handleFrame, setState. rewrite Hrun. cbn [negb].
    destruct (updater (controls s) dt (state s) (heap s)). reflexivity.
  - rewrite (handleFrame_paused s dt Hrun). repeat split.
Qed.

(** X2.  A pendulum hanging at rest stays at rest: from angle 0 and
    angular velocity 0, with the length and the gravity within their
    sliders' ranges and a finite damping, every sequence of frames with
    finite time steps leaves the angle and the angular velocity at 0. *)
Theorem rest_stays_at_rest (dts : list number) :
  forall (s : Store) (len g d : R),
    angle (state s) = Fin 0 ->
    angularVelocity (state s) = Fin 0 ->
    length (state s) = Fin len ->
    lengthSlider len ->
    gravity (controls s) = Fin g ->
    gravitySlider g ->
    damping (controls s) = Fin d ->
    Forall (fun dt => Num.isFinite dt = true) dts ->
    angle (state (run s dts)) = Fin 0
    /\ angularVelocity (state (run s dts)) = Fin 0.
Proof.
  induction dts as [|dt rest IH];
    intros s len g d Ha Hw Hl Hslider Hg Hgs Hd Hfin; cbn [run]; [auto|].
  assert (Hlen : len <> 0%R) by (destruct Hslider; lra).
  inversion Hfin as [|? ? Hdt Hrest]; subst.
  destruct (handleFrame_keeps s dt) as (Hc & Hl' & _).
  apply (IH (handleFrame s dt) len g d); try assumption;
    try (rewrite Hc; assumption); try (rewrite Hl'; assumption).
  - destruct (isRunning (controls s)) eqn:Hrun.
    + destruct (handleFrame_running s dt Hrun) as (Hst & _).
      rewrite Hst. cbn [angle]. rewrite Hg, Hd.
      destruct (state s) as [a w l m t]. cbn [angle angularVelocity length] in *.
      subst a w l. destruct dt as [r| | |]; try discriminate.
      rewrite div_fin by lra. rewrite rk4_finite by exact Hlen.
      rewrite step_rest. reflexivity.
    + rewrite (handleFrame_paused s dt Hrun). exact Ha.
  - destruct (isRunning (controls s)) eqn:Hrun.
    + destruct (handleFrame_running s dt Hrun) as (Hst & _).
      rewrite Hst. cbn [angularVelocity]. rewrite Hg, Hd.
      destruct (state s) as [a w l m t]. cbn [angle angularVelocity length] in *.
      subst a w l. destruct dt as [r| | |]; try discriminate.
      rewrite div_fin by lra. rewrite rk4_finite by exact Hlen.
      rewrite step_rest. reflexivity.
    + rewrite (handleFrame_paused s dt Hrun). exact Hw.
Qed.

Lemma rest_stays_at_rest_witness :
  angle (state (run atRest [Fin 0.017; Fin 0.01])) = Fin 0
  /\ angularVelocity (state (run atRest [Fin 0.017; Fin 0.01])) = Fin 0.
Proof.
  apply (rest_stays_at_rest [Fin 0.017; Fin 0.01] atRest 2 9.81 0.5);
    try reflexivity.
  - unfold lengthSlider. lra.
  - unfold gravitySlider. lra.
  - repeat constructor.
Defined.

(** X5.  The point a frame computes for the trail lies on the circle
    around the pivot (300, 125) whose radius is 150 times the length, for
    every finite angle and every length within its slider's range (up to
    the rounding of the doubles). *)
Theorem bob_on_circle (st : PendulumState) (a len : R) :
  length st = Fin len ->
  lengthSlider len ->
  exists bx by_ : R,
    bob st (Fin a) = mkPoint (Fin bx) (Fin by_)
    /\ ((bx - 300) ^ 2 + (by_ - 125) ^ 2 = (len * 150) ^ 2)%R.
Proof.
  intros Hl _. unfold bob. rewrite Hl. cbn [Math.sin Math.cos Num.mul Num.add].
  eexists. eexists. split; [reflexivity|].
  pose proof (sin2_cos2 a) as E. unfold Rsqr in E.
  replace ((300 + sin a * (len * 150) - 300) ^ 2
           + (125 + cos a * (len * 150) - 125) ^ 2)%R
    with ((len * 150) ^ 2 * (sin a * sin a + cos a * cos a))%R by ring.
  rewrite E. ring.
Qed.

Lemma bob_on_circle_witness :
  exists bx by_ : R,
    bob (initialState 0) (Fin 1) = mkPoint (Fin bx) (Fin by_)
    /\ ((bx - 300) ^ 2 + (by_ - 125) ^ 2 = (2 * 150) ^ 2)%R.
Proof.
  apply (bob_on_circle (initialState 0) 1 2);
    [reflexivity | unfold lengthSlider; lra].
Defined.

(** X6.  Frames never touch what the user sets: after any sequence of
    frames the controls, the length and the mass are the ones before it,
    and so is the component's [lastTimeRef]. *)
Theorem frames_keep_settings (dts : list number) :
  forall s : Store,
    controls (run s dts) = controls s
    /\ length (state (run s dts)) = length (state s)
    /\ mass (state (run s dts)) = mass (state s)
    /\ lastTimeRef (run s dts) = lastTimeRef s.
Proof.
  induction dts as [|dt rest IH]; intros s; cbn [run]; [auto|].
  destruct (IH (handleFrame s dt)) as (Hc & Hl & Hm & Ht).
  destruct (handleFrame_keeps s dt) as (Hc' & Hl' & Hm' & Ht').
  rewrite Hc, Hl, Hm, Ht. auto.
Qed.

(** X7.  With the simulation running and [showTrail] set, each frame adds
    one point until the trail holds 50: after the frames of [dts] the
    trail has [min 50 (n + |dts|)] points, [n] being the number it had.
    This also holds from a trail of more than 50 points as soon as there
    is one frame: the first frame evicts all the excess. *)
Theorem trail_grows_to_fifty (dts : list number) :
  forall s : Store,
    isRunning (controls s) = true ->
    showTrail (controls s) = true ->
    dts <> [] \/ List.length (trailOf s) <= 50 ->
    List.length (trailOf (run s dts))
    = Nat.min 50 (List.length (trailOf s) + List.length dts).
Proof.
  induction dts as [|dt rest IH]; intros s Hrun Hshow Hcase; cbn [run].
  - destruct Hcase as [Hne | Hle]; [congruence|]. cbn [List.length]. lia.
  - destruct (handleFrame_running s dt Hrun) as (_ & Hc & _ & _ & Htr).
    rewrite Hshow in Htr.
    assert (Hlen1 : List.length (trailOf (handleFrame s dt))
                    = Nat.min 50 (List.length (trailOf s) + 1)).
    { rewrite Htr. unfold TrailBuffer.append, TrailBuffer.capacity.
      rewrite lastn_length, length_app. reflexivity. }
    rewrite IH.
    + rewrite Hlen1. cbn [List.length]. lia.
    + rewrite Hc. exact Hrun.
    + rewrite Hc. exact Hshow.
    + right. rewrite Hlen1. lia.
Qed.

Lemma trail_grows_to_fifty_witness :
  List.length (trailOf (run mount [Fin 0.017; Fin 0.017; Fin 0.017]))
  = Nat.min 50 (List.length (trailOf mount)
                + List.length [Fin 0.017; Fin 0.017; Fin 0.017]).
Proof.
  apply (trail_grows_to_fifty [Fin 0.017; Fin 0.017; Fin 0.017] mount).
  - reflexivity.
  - reflexivity.
  - left. discriminate.
Defined.

(** X8.  While [showTrail] is off, frames leave the trail as it is: after
    any sequence of frames it has exactly the elements it had, also when
    there are more than 50 of them. *)
Theorem hidden_trail_is_kept (dts : list number) :
  forall s : Store,
    showTrail (controls s) = false ->
    trailOf (run s dts) = trailOf s.
Proof.
  induction dts as [|dt rest IH]; intros s Hshow; cbn [run]; [reflexivity|].
  destruct (handleFrame_keeps s dt) as (Hc & _).
  rewrite IH by (rewrite Hc; exact Hshow).
  destruct (isRunning (controls s)) eqn:Hrun.
  - destruct (handleFrame_running s dt Hrun) as (_ & _ & _ & _ & Htr).
    rewrite Htr, Hshow. reflexivity.
  - rewrite (handleFrame_paused s dt Hrun). reflexivity.
Qed.

Lemma hidden_trail_is_kept_witness :
  trailOf (run (toggleTrail mount) [Fin 0.017; Fin 0.01])
  = trailOf (toggleTrail mount).
Proof.
  apply (hidden_trail_is_kept [Fin 0.017; Fin 0.01] (toggleTrail mount)).
  reflexivity.
Defined.

(** ** The handlers of the buttons and sliders *)

(** [rk4] reads neither the mass nor the trail. *)
Lemma rk4_reads_no_mass (a w l m m' : number) (t t' : loc) (dt g d : number) :
  rk4 (mkState a w l m t) dt g d = rk4 (mkState a w l m' t') dt g d.
Proof. reflexivity. Qed.

Lemma handleFrame_onMassChange (value : number) (s : Store) (dt : number) :
  handleFrame (onMassChange value s) dt
  = onMassChange value (handleFrame s dt).
Proof.
  destruct s as [h [a w l m t] c lt pt].
  unfold handleFrame, onMassChange, setState, updater.
  cbn [controls state heap lastTimeRef pausedTimeRef Arr.ret
       angle angularVelocity length mass trail].
  destruct (isRunning c); cbn [negb]; [|reflexivity].
  rewrite (rk4_reads_no_mass a w l value m t t).
  unfold bob. cbn [length].
  destruct (rk4 (mkState a w l m t) dt (gravity c) (damping c / Fin 100)%js)
    as [newAngle newVelocity].
  unfold Arr.bind, Arr.spread, Arr.literal, Arr.push, Arr.ret. cbn [trail].
  destruct (showTrail c).
  - destruct (shift_while _ _) as [[] h2]. reflexivity.
  - reflexivity.
Qed.

(** X9.  The mass does not enter the motion: moving the mass slider and
    then running any sequence of frames leaves the same component as
    running the frames and then moving the slider, with the same angle,
    angular velocity and trail as if the slider had not been moved. *)
Theorem mass_slider_commutes_with_frames (value : number) (dts : list number) :
  forall s : Store,
    run (onMassChange value s) dts = onMassChange value (run s dts)
    /\ angle (state (run (onMassChange value s) dts))
       = angle (state (run s dts))
    /\ angularVelocity (state (run (onMassChange value s) dts))
       = angularVelocity (state (run s dts))
    /\ trailOf (run (onMassChange value s) dts) = trailOf (run s dts).
Proof.
  assert (E : forall s, run (onMassChange value s) dts
                        = onMassChange value (run s dts)).
  { induction dts as [|dt rest IH]; intros s; cbn [run]; [reflexivity|].
    rewrite handleFrame_onMassChange. apply IH. }
  intros s. rewrite E. repeat split.
Qed.

(** X10.  Pressing the pause button twice gives back the heap, the state,
    the controls and [pausedTimeRef] it started from, and neither press
    touches the state; only [lastTimeRef] moves, to the time of the press
    that resumed. *)
Theorem toggleSimulation_twice (now1 now2 : number) (s : Store) :
  let s1 := toggleSimulation now1 s in
  let s2 := toggleSimulation now2 s1 in
  state s1 = state s
  /\ heap s1 = heap s
  /\ isRunning (controls s1) = negb (isRunning (controls s))
  /\ heap s2 = heap s
  /\ state s2 = state s
  /\ controls s2 = controls s
  /\ pausedTimeRef s2 = pausedTimeRef s
  /\ lastTimeRef s2 = if isRunning (controls s) then now2 else now1.
Proof.
  destruct s as [h st [running g d show] lt pt].
  unfold toggleSimulation, setControls.
  cbn [controls state heap lastTimeRef pausedTimeRef isRunning gravity
       damping showTrail].
  rewrite Bool.negb_involutive. destruct running; repeat split.
Qed.

(** X11.  A second reset changes nothing one can observe: it leaves the
    same angle, angular velocity, length, mass, controls and refs as a
    single reset and again an empty trail; the trail is however another
    array each time. *)
Theorem resetSimulation_twice (now before : number) (s : Store) :
  let once := resetSimulation now s in
  let twice := resetSimulation now (resetSimulation before s) in
  angle (state twice) = angle (state once)
  /\ angularVelocity (state twice) = angularVelocity (state once)
  /\ length (state twice) = length (state once)
  /\ mass (state twice) = mass (state once)
  /\ trailOf twice = trailOf once
  /\ trailOf twice = []
  /\ controls twice = controls once
  /\ lastTimeRef twice = lastTimeRef once
  /\ pausedTimeRef twice = pausedTimeRef once
  /\ trail (state twice) <> trail (state once).
Proof.
  intros once twice. subst once twice.
  unfold resetSimulation, setControls, setState, trailOf.
  cbn [Arr.bind Arr.literal Arr.ret heap state controls initialState angle
       angularVelocity length mass trail isRunning gravity damping showTrail
       lastTimeRef pausedTimeRef].
  rewrite !ArrFacts.read_app_new, length_app. cbn [List.length].
  repeat split. lia.
Qed.

(** ** The canvas *)

Lemma min_capped (a : number) :
  a <> NaN -> (Math_min a (Fin 0.017) <= Fin 0.017)%js.
Proof.
  destruct a as [r| | |]; intros H; cbn [Math_min Num.le]; try lra; try tauto.
  destruct (Rle_dec r 0.017); cbn [Num.le]; lra.
Qed.

(** X12.  Whatever the canvas's time ref holds, for a finite timestamp
    [animate] computes a time step of at most 0.017 s, stores the
    timestamp in the ref, and advances a running component by
    [handleFrame] with that step; a paused component is returned as it is,
    so that [handleFrame] is never called on it and [pausedTimeRef] is
    never written. *)
Theorem animate_caps_the_step
  (r : PendulumCanvas.Refs) (s : Store) (currentTime : number) :
  Num.isFinite currentTime = true ->
  let deltaTime := PendulumCanvas.deltaTimeOf r currentTime in
  let result := PendulumCanvas.animate r s currentTime in
  (deltaTime <= Fin 0.017)%js
  /\ PendulumCanvas.lastTimeRef (fst result) = currentTime
  /\ (isRunning (controls s) = true -> snd result = handleFrame s deltaTime)
  /\ (isRunning (controls s) = false -> snd result = s)
  /\ pausedTimeRef (snd result) = pausedTimeRef s.
Proof.
  intros Hfin deltaTime result. subst deltaTime result.
  destruct currentTime as [t| | |]; try discriminate.
  split; [|split; [reflexivity|]].
  - unfold PendulumCanvas.deltaTimeOf. apply min_capped.
    destruct (PendulumCanvas.lastTimeRef r) as [l| | |];
      cbn [truthy negb Num.sub Num.neg Num.add].
    + destruct (Req_dec_T l 0); cbn [negb Num.neg Num.add];
        rewrite div_fin by lra; discriminate.
    + cbn [Num.div]. rewrite sign_pos by lra. discriminate.
    + cbn [Num.div]. rewrite sign_pos by lra. discriminate.
    + rewrite div_fin by lra. discriminate.
  - unfold PendulumCanvas.animate. cbn [fst snd].
    destruct (isRunning (controls s)) eqn:Hrun.
    + repeat split; try discriminate.
      unfold handleFrame, setState. rewrite Hrun. cbn [negb].
      destruct (updater _ _ _ _). reflexivity.
    + repeat split; discriminate.
Qed.

Lemma animate_caps_the_step_witness :
  let r := PendulumCanvas.mkRefs (Fin 1000) in
  let deltaTime := PendulumCanvas.deltaTimeOf r (Fin 1500) in
  let result := PendulumCanvas.animate r mount (Fin 1500) in
  (deltaTime <= Fin 0.017)%js
  /\ PendulumCanvas.lastTimeRef (fst result) = Fin 1500
  /\ (isRunning (controls mount) = true ->
      snd result = handleFrame mount deltaTime)
  /\ (isRunning (controls mount) = false -> snd result = mount)
  /\ pausedTimeRef (snd result) = pausedTimeRef mount.
Proof.
  apply (animate_caps_the_step (PendulumCanvas.mkRefs (Fin 1000)) mount
           (Fin 1500)).
  reflexivity.
Defined.

(** The first time step: the ref is still falsy, so the step is zero. *)
Lemma first_deltaTime (r : PendulumCanvas.Refs) (t : R) :
  truthy (PendulumCanvas.lastTimeRef r) = false ->
  PendulumCanvas.deltaTimeOf r (Fin t) = Fin 0.
Proof.
  intros H. unfold PendulumCanvas.deltaTimeOf. rewrite H.
  cbn [negb Num.sub Num.neg Num.add]. rewrite div_fin by lra.
  unfold Math_min. destruct (Rle_dec ((t + - t) / 1000) 0.017) as [_|N].
  - f_equal. field.
  - exfalso. apply N. lra.
Qed.

(** X13.  The first animation frame does not move the pendulum.  While
    the canvas's time ref is falsy (0, as it is created), [animate]
    computes a step of zero: with the length, the gravity and the damping
    within their sliders' ranges and an angle and angular velocity of
    moderate size, the angle and the angular velocity come out unchanged,
    yet a running component with [showTrail] set still gets a trail point,
    at the position of the bob before the frame. *)
Theorem first_animate_is_a_zero_step
  (r : PendulumCanvas.Refs) (s : Store) (t theta omega len g d : R) :
  truthy (PendulumCanvas.lastTimeRef r) = false ->
  angle (state s) = Fin theta ->
  angularVelocity (state s) = Fin omega ->
  length (state s) = Fin len ->
  gravity (controls s) = Fin g ->
  damping (controls s) = Fin d ->
  moderate theta -> moderate omega ->
  lengthSlider len -> gravitySlider g -> dampingSlider d ->
  let s' := snd (PendulumCanvas.animate r s (Fin t)) in
  angle (state s') = Fin theta
  /\ angularVelocity (state s') = Fin omega
  /\ (isRunning (controls s) = true -> showTrail (controls s) = true ->
      trailOf s'
      = TrailBuffer.append (trailOf s) (bob (state s) (Fin theta))).
Proof.
  intros Hr Ha Hw Hl Hg Hd _ _ [Hlo Hhi] _ _ s'. subst s'.
  assert (Hlen : len <> 0%R) by lra.
  unfold PendulumCanvas.animate. cbn [snd]. rewrite (first_deltaTime r t Hr).
  destruct (isRunning (controls s)) eqn:Hrun.
  - destruct (handleFrame_running s (Fin 0) Hrun) as (Hst & _ & _ & _ & Htr).
    assert (E : rk4 (state s) (Fin 0) (gravity (controls s))
                  (damping (controls s) / Fin 100)%js
                = (Fin theta, Fin omega)).
    { rewrite Hg, Hd. destruct (state s) as [a w l m tr].
      cbn [angle angularVelocity length] in *. subst a w l.
      rewrite div_fin by lra. rewrite rk4_finite by exact Hlen.
      rewrite step_zero. reflexivity. }
    rewrite E in Hst, Htr. cbn [fst snd] in Hst, Htr.
    rewrite Hst. cbn [angle angularVelocity]. repeat split.
    intros _ Hshow. rewrite Htr, Hshow. reflexivity.
  - repeat split; try assumption. discriminate.
Qed.

Lemma first_animate_is_a_zero_step_witness :
  let s' :=
    snd (PendulumCanvas.animate (PendulumCanvas.mkRefs (Fin 0)) atRest
           (Fin 1234)) in
  angle (state s') = Fin 0
  /\ angularVelocity (state s') = Fin 0
  /\ (isRunning (controls atRest) = true ->
      showTrail (controls atRest) = true ->
      trailOf s'
      = TrailBuffer.append (trailOf atRest) (bob (state atRest) (Fin 0))).
Proof.
  apply (first_animate_is_a_zero_step (PendulumCanvas.mkRefs (Fin 0)) atRest
           1234 0 0 2 9.81 0.5); try reflexivity;
    try (unfold moderate, lengthSlider, gravitySlider, dampingSlider; lra).
  simpl. destruct (Req_dec_T 0 0); [reflexivity | congruence].
Defined.

(** X14.  The bob is drawn where the trail expects it only on a canvas
    of 600 by 500: for a finite angle and a length within its slider's
    range, the position [animate] draws the bob at equals the position
    [handleFrame] records for the same angle exactly when the canvas's
    rectangle has that size (up to the rounding of the doubles). *)
Theorem drawn_bob_meets_trail (st : PendulumState) (w h a len : R) :
  angle st = Fin a ->
  length st = Fin len ->
  lengthSlider len ->
  PendulumCanvas.bobDrawn (Fin w) (Fin h) st = bob st (angle st)
  <-> (w = 600 /\ h = 500)%R.
Proof.
  intros Ha Hl _. unfold PendulumCanvas.bobDrawn, bob. rewrite Ha, Hl.
  rewrite !div_fin by lra.
  cbn [Math.sin Math.cos Num.mul Num.add].
  set (sx := (sin a * (len * 150))%R). set (cy := (cos a * (len * 150))%R).
  split.
  - intros E. injection E as Ex Ey. split; lra.
  - intros [-> ->]. f_equal; f_equal; lra.
Qed.

Lemma drawn_bob_meets_trail_witness :
  PendulumCanvas.bobDrawn (Fin 600) (Fin 500)
    (mkState (Fin 1) (Fin 0) (Fin 2) (Fin 1) 0)
  = bob (mkState (Fin 1) (Fin 0) (Fin 2) (Fin 1) 0)
      (angle (mkState (Fin 1) (Fin 0) (Fin 2) (Fin 1) 0))
  <-> (600 = 600 /\ 500 = 500)%R.
Proof.
  apply (drawn_bob_meets_trail (mkState (Fin 1) (Fin 0) (Fin 2) (Fin 1) 0)
           600 500 1 2); [reflexivity | reflexivity | unfold lengthSlider; lra].
Defined.

(** X15.  The energy bar.  For a finite angle, an angular velocity of
    moderate size and the mass, the gravity and the length within their
    sliders' ranges, the height of the bar is a finite number that is
    never negative.  It stays within the 100 pixels of its frame exactly
    when [(omega * length)^2 / 2 <= gravity * length * (1 + cos theta)],
    which holds whenever the pendulum is momentarily at rest (all this up
    to the rounding of the doubles). *)
Theorem energy_bar_range
  (st : PendulumState) (c : SimulationControls) (theta omega len m g : R) :
  angle st = Fin theta ->
  angularVelocity st = Fin omega ->
  length st = Fin len ->
  mass st = Fin m ->
  gravity c = Fin g ->
  moderate omega ->
  lengthSlider len -> massSlider m -> gravitySlider g ->
  exists e : R,
    PendulumCanvas.energyHeight st c = Fin e
    /\ (0 <= e)%R
    /\ ((e <= 100)%R
        <-> ((omega * len) ^ 2 / 2 <= g * len * (1 + cos theta))%R)
    /\ (omega = 0%R -> (e <= 100)%R).
Proof.
  intros Ha Hw Hl Hm Hg _ [Hlen0 _] [Hmass0 _] [Hgrav0 _].
  assert (Hlen : (0 < len)%R) by lra.
  assert (Hmass : (0 < m)%R) by lra.
  assert (Hgrav : (0 < g)%R) by lra.
  assert (D : (0 < 2 * m * g * len)%R).
  { repeat apply Rmult_lt_0_compat; lra. }
  unfold PendulumCanvas.energyHeight, calculateEnergy, calculateMaxEnergy.
  rewrite Ha, Hw, Hl, Hm, Hg.
  cbn [Math.pow Math.cos Num.mul Num.add Num.sub Num.neg].
  rewrite div_fin by lra. cbn [Num.mul].
  eexists. split; [reflexivity|].
  set (N := (0.5 * m * (omega * len * (omega * len * 1))
             + m * g * len * (1 + - cos theta))%R).
  set (Dn := (2 * m * g * len)%R) in *.
  pose proof (COS_bound theta) as [Hc1 Hc2].
  assert (HN : (0 <= N)%R).
  { subst N. apply Rplus_le_le_0_compat.
    - apply Rmult_le_pos; [lra|].
      replace (omega * len * (omega * len * 1))%R
        with ((omega * len) * (omega * len))%R by ring.
      apply Rle_0_sqr.
    - apply Rmult_le_pos; [|lra].
      apply Rlt_le. repeat apply Rmult_lt_0_compat; lra. }
  assert (Hq : (N = N / Dn * Dn)%R) by (field; lra).
  assert (Hiff : (N / Dn * 100 <= 100 <-> N <= Dn)%R).
  { split; intros H.
    - rewrite Hq. nra.
    - assert (N / Dn <= 1)%R; [|lra].
      apply Rmult_le_reg_r with Dn; [exact D|]. rewrite <- Hq. lra. }
  assert (Hcond : (N <= Dn
                   <-> (omega * len) ^ 2 / 2 <= g * len * (1 + cos theta))%R).
  { subst N Dn.
    assert (Hm2 : forall u v : R, (m * u <= m * v <-> u <= v)%R).
    { intros u v. split; intros H; [|nra].
      apply Rmult_le_reg_l with m; assumption. }
    rewrite <- (Hm2 ((omega * len) ^ 2 / 2)%R).
    split; intros H; lra || nra. }
  split; [|split].
  - assert (0 <= N / Dn)%R; [|lra].
    apply Rmult_le_reg_r with Dn; [exact D|]. rewrite <- Hq. lra.
  - rewrite Hiff. exact Hcond.
  - intros Hzero. apply Hiff, Hcond. subst omega.
    assert (0 <= g * len * (1 + cos theta))%R; [|lra].
    apply Rmult_le_pos; [|lra]. apply Rlt_le, Rmult_lt_0_compat; lra.
Qed.

Lemma energy_bar_range_witness :
  exists e : R,
    PendulumCanvas.energyHeight (mkState (Fin 1) (Fin 0) (Fin 2) (Fin 1) 0)
      initialControls = Fin e
    /\ (0 <= e)%R
    /\ ((e <= 100)%R
        <-> ((0 * 2) ^ 2 / 2 <= 9.81 * 2 * (1 + cos 1))%R)
    /\ (0%R = 0%R -> (e <= 100)%R).
Proof.
  apply (energy_bar_range (mkState (Fin 1) (Fin 0) (Fin 2) (Fin 1) 0)
           initialControls 1 0 2 1 9.81); try reflexivity;
    unfold moderate, lengthSlider, massSlider, gravitySlider; lra.
Defined.

Lemma at_index_in (trail : list Point) (i : nat) :
  i < List.length trail ->
  PendulumCanvas.at_index trail i = Normal (nth i trail (mkPoint NaN NaN)).
Proof.
  intros H. unfold PendulumCanvas.at_index.
  rewrite (nth_error_nth' trail (mkPoint NaN NaN) H). reflexivity.
Qed.

(** The loop reads inside the array only, and issues one curve per index
    from [i] to the last but one. *)
Lemma curvesFrom_spec (pts : list Point) (i : nat) :
  PendulumCanvas.curvesFrom pts i
  = Normal (map (curveAt pts) (seq i (List.length pts - 1 - i))).
Proof.
  funelim (PendulumCanvas.curvesFrom pts i).
  - match goal with
    | Hlt : ?k < List.length ?t - 1, IH : Point -> Point -> _ |- _ =>
        rewrite (at_index_in t k) by lia;
        rewrite (at_index_in t (k + 1)) by lia;
        rewrite (IH (mkPoint NaN NaN) (mkPoint NaN NaN));
        replace (List.length t - 1 - k)
          with (S (List.length t - 1 - (k + 1))) by lia;
        cbn [seq map]; replace (S k) with (k + 1) by lia; reflexivity
    end.
  - match goal with
    | Hge : ~ ?k < List.length ?t - 1 |- _ =>
        replace (List.length t - 1 - k) with 0 by lia; reflexivity
    end.
Qed.

(** X16.  Drawing the trail never reads outside the array, whatever the
    trail.  With [showTrail] off or fewer than two points nothing is sent
    to the canvas.  Otherwise the path starts at the first point and has
    one curve for each index from 1 to the last but one, that is
    [length - 2] curves: with exactly two points it has none, and with
    more the path ends half way between the last two points. *)
Theorem drawTrail_stays_in_bounds (show : bool) (trail : list Point) :
  exists cmds : list PathCmd,
    PendulumCanvas.drawTrail show trail = Normal cmds
    /\ (show = false \/ List.length trail <= 1 -> cmds = [])
    /\ (show = true -> 2 <= List.length trail ->
        cmds
        = [BeginPath;
           MoveTo (x (nth 0 trail (mkPoint NaN NaN)))
                  (y (nth 0 trail (mkPoint NaN NaN)))]
          ++ map (curveAt trail) (seq 1 (List.length trail - 2))
          ++ [SetStrokeStyle "rgba(59, 130, 246, 0.15)";
              SetLineWidth (Fin 3); Stroke]).
Proof.
  unfold PendulumCanvas.drawTrail.
  destruct show; cbn [andb].
  - destruct (1 <? List.length trail) eqn:E.
    + apply Nat.ltb_lt in E.
      rewrite (at_index_in trail 0) by lia. rewrite curvesFrom_spec.
      replace (List.length trail - 1 - 1) with (List.length trail - 2) by lia.
      eexists. split; [reflexivity|]. split.
      * intros [H | H]; [discriminate | lia].
      * intros _ _. reflexivity.
    + apply Nat.ltb_ge in E.
      eexists. split; [reflexivity|]. split.
      * reflexivity.
      * intros _ H. lia.
  - eexists. split; [reflexivity|]. split.
    + reflexivity.
    + discriminate.
Qed.

(** ** The information panel *)

Lemma sqrt_fin (r : R) : (0 <= r)%R -> Math.sqrt (Fin r) = Fin (sqrt r).
Proof.
  intros H. unfold Math.sqrt. destruct (Rlt_dec r 0); [lra | reflexivity].
Qed.

(** X17.  The number the panel formats as the period depends on the
    length and on gravity alone: with both within their sliders' ranges it
    is the finite number [2 pi sqrt (length / gravity)], which is not
    negative, and for a length four times as large, still within the
    range, the number is twice as large. *)
Theorem period_doubles_with_fourfold_length
  (st st4 : PendulumState) (c : SimulationControls) (len g : R) :
  length st = Fin len ->
  length st4 = Fin (4 * len) ->
  gravity c = Fin g ->
  lengthSlider len -> lengthSlider (4 * len) -> gravitySlider g ->
  exists T : R,
    periodText st c = Fin T
    /\ T = (2 * PI * sqrt (len / g))%R
    /\ (0 <= T)%R
    /\ periodText st4 c = Fin (2 * T).
Proof.
  intros Hl Hl4 Hg [Hlen0 _] _ [Hgrav0 _].
  assert (Hlen : (0 <= len)%R) by lra.
  assert (Hgrav : (0 < g)%R) by lra.
  assert (Hq : (0 <= len / g)%R).
  { apply Rmult_le_pos; [exact Hlen|]. apply Rlt_le, Rinv_0_lt_compat, Hgrav. }
  unfold periodText. rewrite Hl, Hl4, Hg. unfold Math.PI.
  rewrite !div_fin by lra.
  replace (4 * len / g)%R with (2 * 2 * (len / g))%R by (field; lra).
  rewrite !sqrt_fin by lra. cbn [Num.mul].
  eexists. split; [reflexivity|]. split; [reflexivity|]. split.
  - pose proof PI_RGT_0. pose proof (sqrt_pos (len / g)).
    apply Rmult_le_pos; [lra | assumption].
  - rewrite sqrt_mult by lra. rewrite sqrt_square by lra.
    f_equal. ring.
Qed.

Lemma period_doubles_with_fourfold_length_witness :
  exists T : R,
    periodText (mkState (Fin 0) (Fin 0) (Fin 1) (Fin 1) 0) initialControls
    = Fin T
    /\ T = (2 * PI * sqrt (1 / 9.81))%R
    /\ (0 <= T)%R
    /\ periodText (mkState (Fin 0) (Fin 0) (Fin (4 * 1)) (Fin 1) 0)
         initialControls = Fin (2 * T).
Proof.
  apply (period_doubles_with_fourfold_length
           (mkState (Fin 0) (Fin 0) (Fin 1) (Fin 1) 0)
           (mkState (Fin 0) (Fin 0) (Fin (4 * 1)) (Fin 1) 0)
           initialControls 1 9.81); try reflexivity;
    unfold lengthSlider, gravitySlider; lra.
Defined.

(** X18.  The number the panel formats as the maximum speed follows the
    current angle, not the amplitude: for a finite angle and the gravity
    and the length within their sliders' ranges it is a finite number
    between 0 and [2 sqrt (2 gravity length)], and it is 0 whenever the
    bob is at the bottom (angle 0), whatever its speed. *)
Theorem max_speed_shown_follows_angle
  (st : PendulumState) (c : SimulationControls) (theta len g : R) :
  angle st = Fin theta ->
  length st = Fin len ->
  gravity c = Fin g ->
  lengthSlider len -> gravitySlider g ->
  exists v : R,
    maxSpeedText st c = Fin v
    /\ (0 <= v <= 2 * sqrt (2 * g * len))%R
    /\ (theta = 0%R -> v = 0%R).
Proof.
  intros Ha Hl Hg [Hlen _] [Hgrav _].
  assert (Hpos : (0 <= g * len)%R) by nra.
  unfold maxSpeedText. rewrite Ha, Hl, Hg.
  cbn [Math.cos Num.mul Num.sub Num.neg Num.add].
  rewrite sqrt_fin by lra. cbn [Num.mul].
  eexists. split; [reflexivity|].
  pose proof (COS_bound theta) as [Hc1 Hc2].
  pose proof (sqrt_pos (2 * g * len)) as Hs.
  split; [split|].
  - apply Rmult_le_pos; [exact Hs | lra].
  - nra.
  - intros ->. rewrite cos_0. ring.
Qed.

Lemma max_speed_shown_follows_angle_witness :
  exists v : R,
    maxSpeedText (mkState (Fin 0) (Fin 3) (Fin 2) (Fin 1) 0) initialControls
    = Fin v
    /\ (0 <= v <= 2 * sqrt (2 * 9.81 * 2))%R
    /\ (0%R = 0%R -> v = 0%R).
Proof.
  apply (max_speed_shown_follows_angle
           (mkState (Fin 0) (Fin 3) (Fin 2) (Fin 1) 0) initialControls
           0 2 9.81); try reflexivity;
    unfold lengthSlider, gravitySlider; lra.
Defined.
